(** * Lynchian Weather Dreams: orchestration pipeline, map geometry and visualiser

    A shallow embedding of the client-side logic of the repository:

    - [WorldMap]       : src/components/WorldMap.tsx (click mapping, marker
                         placement, subsolar longitude);
    - [Constants]      : src/constants.ts (condition labels, city list);
    - [WeatherService] : services/weatherService.ts (terrain classifier,
                         the two fetchers);
    - [GeminiService]  : src/services/geminiService.ts (narrative, speech
                         and image gateways);
    - [App]            : src/App.tsx (log buffer, busy guard, pipeline run,
                         auto-drift);
    - [LynchPlayer]    : src/components/LynchPlayer.tsx (playback handle and
                         the per-frame drawing loop).

    JavaScript numbers are modelled by rationals [Q]: every finite double is a
    rational, [Math.abs] and the comparisons are exact on them, and the
    arithmetic of the mapper is taken exactly (the rounding of the
    implementation is outside the model).  Asynchronous functions are cut at
    their [await]s: the part that runs up to an [await] is one function, the
    suspended rest is a continuation kept in a store of runs in flight, and
    the settlement of the awaited promise is an event that resumes it. *)

From Stdlib Require Import QArith Qabs Qround Lqa Lia ZArith List String Bool.
From Stdlib Require Import DecimalString.
From Stdlib Require Import Reals.
From Stdlib Require Lra.
From stdpp Require Import base option gmap.

Import ListNotations.
Local Open Scope string_scope.

(* ===================================================================== *)
(** ** Shared types (src/types.ts)                                        *)
(* ===================================================================== *)

Record Coordinates : Type := mkCoordinates { lat : Q; lng : Q }.

Record WeatherData : Type := mkWeatherData {
  temperature : Q;
  windSpeed : Q;
  conditionCode : Z
}.

Inductive AppState : Type :=
| IDLE
| FETCHING_WEATHER
| GENERATING_NARRATIVE
| GENERATING_MEDIA
| PLAYING
| ERROR.

(** The three entries of [THEMES] (src/constants.ts); [theme_id] is the [id]
    field of the configuration. *)
Inductive ThemeConfig : Type := LYNCH | WES | BLADE.

Definition theme_id (t : ThemeConfig) : string :=
  match t with
  | LYNCH => "LYNCH"
  | WES => "WES"
  | BLADE => "BLADE"
  end.

(** Browser objects are references; the model keeps their identity. *)
Inductive AudioBuffer : Type := AudioBufferRef (n : nat).

Record LynchContent : Type := mkLynchContent {
  narrativeText : string;
  audioBuffer : option AudioBuffer;
  videoUrl : option string;
  imageUrl : option string;
  location : Coordinates;
  themeId : string
}.

(** Outcome of a promise once settled ([Promise.allSettled], or the two ways
    an [await] continues); a rejection carries the message of its error. *)
Inductive Settled (A : Type) : Type :=
| Fulfilled (value : A)
| Rejected (reason : string).
Arguments Fulfilled {A} value.
Arguments Rejected {A} reason.

Record CityWeather : Type := mkCityWeather {
  name : string;
  cityLat : Q;
  cityLng : Q;
  cityTemperature : Q
}.

(* ===================================================================== *)
(** ** src/constants.ts                                                   *)
(* ===================================================================== *)

Module Constants.

Definition WEATHER_CODES : gmap Z string :=
  list_to_map
    [ (0%Z, "Clear sky"); (1%Z, "Mainly clear"); (2%Z, "Partly cloudy");
      (3%Z, "Overcast"); (45%Z, "Fog"); (48%Z, "Depositing rime fog");
      (51%Z, "Light drizzle"); (53%Z, "Moderate drizzle");
      (55%Z, "Dense drizzle"); (61%Z, "Slight rain");
      (63%Z, "Moderate rain"); (65%Z, "Heavy rain");
      (71%Z, "Slight snow fall"); (73%Z, "Moderate snow fall");
      (75%Z, "Heavy snow fall"); (95%Z, "Thunderstorm") ].

Record City : Type := mkCity { city : string; lat : Q; lng : Q }.

Definition MAJOR_CITIES : list City :=
  [ mkCity "LA" (3405 # 100) (-11824 # 100);
    mkCity "NY" (4071 # 100) (-7400 # 100);
    mkCity "LDN" (5150 # 100) (-12 # 100);
    mkCity "TKY" (3567 # 100) (13965 # 100);
    mkCity "SYD" (-3386 # 100) (15120 # 100);
    mkCity "MOS" (5575 # 100) (3761 # 100);
    mkCity "RIO" (-2290 # 100) (-4317 # 100);
    mkCity "CAI" (3004 # 100) (3123 # 100);
    mkCity "MUM" (1907 # 100) (7287 # 100);
    mkCity "PAR" (4885 # 100) (235 # 100);
    mkCity "KEF" (6400 # 100) (-2256 # 100);
    mkCity "ANT" (-7525 # 100) (0 # 100) ].

End Constants.

(* ===================================================================== *)
(** ** src/components/WorldMap.tsx                                        *)
(* ===================================================================== *)

Module WorldMap.
Local Open Scope Q_scope.

(** [getBoundingClientRect()] of the click overlay. *)
Record DOMRect : Type := mkDOMRect {
  left : Q; top : Q; width : Q; height : Q
}.

Record MouseEvent : Type := mkMouseEvent { clientX : Q; clientY : Q }.

(** [handleClick]: [None] when the handler returns early (disabled map or
    unmounted overlay), otherwise the coordinate handed to
    [onSelectLocation]. *)
Definition handleClick (disabled : bool) (mapRef : option DOMRect)
    (e : MouseEvent) : option Coordinates :=
  if disabled then None
  else match mapRef with
       | None => None
       | Some rect =>
           let x := clientX e - left rect in
           let y := clientY e - top rect in
           let normX := x / width rect in
           let normY := y / height rect in
           let lng := (normX * 360) - 180 in
           let lat := 90 - (normY * 180) in
           Some (mkCoordinates lat lng)
       end.

(** [getPos]: the numbers written in front of the two ["%"] signs. *)
Record Pos : Type := mkPos { leftPct : Q; topPct : Q }.

Definition getPos (lat lng : Q) : Pos :=
  mkPos (((lng + 180) / 360) * 100) (((90 - lat) / 180) * 100).

(** How the style sheet places the percentages of [getPos] on a viewport:
    [left: p%] is [p/100] of the container's width from its left edge (the
    markers are centred on that point by their [-translate-1/2] classes).
    This follows the specification's "scaling onto a viewport", it is not a
    function of the source. *)
Definition percentToClient (rect : DOMRect) (p : Pos) : MouseEvent :=
  mkMouseEvent (left rect + (leftPct p / 100) * width rect)
               (top rect + (topPct p / 100) * height rect).

(** [calculateSunPosition], longitude part.  [utcHours] is
    [now.getUTCHours() + now.getUTCMinutes() / 60]. *)
Definition utcHours (getUTCHours getUTCMinutes : Z) : Q :=
  inject_Z getUTCHours + inject_Z getUTCMinutes / 60.

Definition sunLngRaw (utcHours : Q) : Q := (12 - utcHours) * 15.

Definition sunLng (utcHours : Q) : Q :=
  let sunLng := (12 - utcHours) * 15 in
  let sunLng := if Qlt_le_dec sunLng (-180) then sunLng + 360 else sunLng in
  let sunLng := if Qlt_le_dec 180 sunLng then sunLng - 360 else sunLng in
  sunLng.

(** [handleMouseMove]: the hover read-out; [None] when the overlay is not
    mounted.  It has no [disabled] test. *)
Definition handleMouseMove (mapRef : option DOMRect) (e : MouseEvent)
    : option Coordinates :=
  match mapRef with
  | None => None
  | Some rect =>
      let x := clientX e - left rect in
      let y := clientY e - top rect in
      let normX := x / width rect in
      let normY := y / height rect in
      Some (mkCoordinates (90 - (normY * 180)) ((normX * 360) - 180))
  end.

(** [handleCityClick]: the coordinate handed to [onSelectLocation]. *)
Definition handleCityClick (disabled : bool) (city : CityWeather)
    : option Coordinates :=
  if disabled then None
  else Some (mkCoordinates (cityLat city) (cityLng city)).

(** [calculateSunPosition], latitude part.  [diff] is
    [now.getTime() - start.getTime()] in milliseconds; [Math.floor] of the
    quotient is the floor division of integers.  The sine is the one of the
    real numbers. *)
Definition dayOfYear (diff : Z) : Z := (diff / (1000 * 60 * 60 * 24))%Z.

Definition sunLat (dayOfYear : Z) : R :=
  (2344 / 100 * sin ((2 * PI / 365) * (IZR dayOfYear - 81)))%R.

(** [getCityTime] (the variant of the component that labels the markers
    with a clock): the number handed to [new Date(...)].  [getTime] and
    [getTimezoneOffset] are those of [currentTime]; the text is produced
    from that date by the runtime's [toLocaleString]. *)
Definition cityTime (getTime getTimezoneOffset : Z) (lng : Q) : Q :=
  let utc := inject_Z getTime + inject_Z getTimezoneOffset * 60000 in
  let offsetHours := lng / 15 in
  utc + (3600000 * offsetHours).

End WorldMap.

(* ===================================================================== *)
(** ** services/weatherService.ts                                         *)
(* ===================================================================== *)

Module WeatherService.
Local Open Scope Q_scope.

Definition Qltb (a b : Q) : bool := if Qlt_le_dec a b then true else false.

Definition getTerrainDescription (lat lng : Q) : string :=
  if Qltb 60 (Qabs lat) then "frozen tundra"
  else if Qltb (Qabs lat) 20 && Qltb (Qabs lng) 30 then "dense jungle"
  else if Qltb 20 (Qabs lat) && Qltb (Qabs lat) 40 && Qltb 100 (Qabs lng)
       then "lonely desert highway"
  else "an industrial wasteland".

(** An HTTP exchange as the two fetchers see it: [fetch] throws, the
    status is not a success, [response.json()] throws, or a document
    arrives. *)
Inductive Exchange (A : Type) : Type :=
| FetchThrows (message : string)
| NotOk
| JsonThrows (message : string)
| Json (data : A).
Arguments FetchThrows {A} message.
Arguments NotOk {A}.
Arguments JsonThrows {A} message.
Arguments Json {A} data.

(** The document of the single-point request: [data.current] holds the
    three requested numbers, or it is missing and reading a field of it
    throws a [TypeError] with the engine's message. *)
Inductive ForecastJson : Type :=
| Current (temperature_2m wind_speed_10m : Q) (weather_code : Z)
| NoCurrent (typeError : string).

Definition fetchWeatherData (exchange : Exchange ForecastJson)
    : Settled WeatherData :=
  match exchange with
  | FetchThrows message => Rejected message
  | NotOk => Rejected "Failed to fetch weather data"
  | JsonThrows message => Rejected message
  | Json (Current temperature_2m wind_speed_10m weather_code) =>
      Fulfilled (mkWeatherData temperature_2m wind_speed_10m weather_code)
  | Json (NoCurrent typeError) => Rejected typeError
  end.

(** The document of the batch request: an array whose entries have
    [current.temperature_2m] ([Some]) or no [current] ([None]), or
    something that is not an array. *)
Inductive BatchJson : Type :=
| ArrayOf (entries : list (option Q))
| NotArray.

(** [data.map((d, i) => ...)] from index [i] on: [None] when a callback
    throws, which it does when [MAJOR_CITIES[i]] is undefined or [d] has no
    [current]. *)
Fixpoint mapCities (i : nat) (entries : list (option Q))
    : option (list CityWeather) :=
  match entries with
  | [] => Some []
  | d :: rest =>
      match Constants.MAJOR_CITIES !! i, d with
      | Some c, Some temperature_2m =>
          match mapCities (S i) rest with
          | Some cities =>
              Some (mkCityWeather (Constants.city c) (Constants.lat c)
                                  (Constants.lng c) temperature_2m :: cities)
          | None => None
          end
      | _, _ => None
      end
  end.

(** [fetchGlobalTemperatures]: the promise is always fulfilled. *)
Definition fetchGlobalTemperatures (exchange : Exchange BatchJson)
    : list CityWeather :=
  match exchange with
  | Json (ArrayOf entries) => default [] (mapCities 0 entries)
  | Json NotArray => []
  | FetchThrows _ | NotOk | JsonThrows _ => []
  end.

End WeatherService.

(* ===================================================================== *)
(** ** src/services/geminiService.ts                                      *)
(* ===================================================================== *)

Module GeminiService.

Record InlineData : Type := mkInlineData { mimeType : string; data : string }.

(** A part of the model's answer; text parts carry no [inlineData]. *)
Record Part : Type := mkPart { inlineData : option InlineData }.

(** What the remote calls of [generateSceneryImage] do.  [createClient] and
    [theme.videoPromptTemplate] run before the [try]; the model call runs
    inside it.  [parts] is [response.candidates?.[0]?.content?.parts]. *)
Inductive ImageCall : Type :=
| PromptThrows (message : string)
| ModelThrows (message : string)
| ModelResponds (parts : option (list Part)).

(** The [for ... of] loop: the first part that has [inlineData] returns. *)
Fixpoint firstInlineImage (parts : list Part) : option string :=
  match parts with
  | [] => None
  | part :: rest =>
      match inlineData part with
      | Some d => Some ("data:" ++ mimeType d ++ ";base64," ++ data d)
      | None => firstInlineImage rest
      end
  end.

Definition generateSceneryImage (call : ImageCall) : Settled (option string) :=
  match call with
  | PromptThrows message => Rejected message
  | ModelThrows _ => Fulfilled None
  | ModelResponds parts => Fulfilled (firstInlineImage (default [] parts))
  end.

(** What the remote call of [generateSpeech] does: it throws, or it answers
    with [base64Audio] (absent or a string) and then [decodeAudioData]
    (services/utils.ts, a wrapper of the browser's decoder) settles. *)
Inductive SpeechCall : Type :=
| SpeechThrows (message : string)
| SpeechResponds (base64Audio : option string) (decoded : Settled AudioBuffer).

(** [!base64Audio]: absent and the empty string are both falsy. *)
Definition falsy (s : option string) : bool :=
  match s with
  | None => true
  | Some s => String.eqb s ""
  end.

Definition generateSpeech (call : SpeechCall) : Settled AudioBuffer :=
  match call with
  | SpeechThrows message => Rejected message
  | SpeechResponds base64Audio decoded =>
      if falsy base64Audio then Rejected "No audio data returned"
      else decoded
  end.

(** [a || b] for a string that may be undefined: the empty string is
    falsy. *)
Definition orElse (a : option string) (b : string) : string :=
  if falsy a then b else default b a.

(** [weatherDesc] of [generateNarrative]. *)
Definition weatherDesc (weather : WeatherData) : string :=
  orElse (Constants.WEATHER_CODES !! conditionCode weather) "Unknown".

(** [generateNarrative]: [response] is what the model call does
    ([Rejected] when it or [createClient] throws, otherwise
    [response.text]). *)
Definition generateNarrative (response : Settled (option string))
    : Settled string :=
  match response with
  | Rejected message => Rejected message
  | Fulfilled text => Fulfilled (orElse text "Static...")
  end.

End GeminiService.

(* ===================================================================== *)
(** ** src/App.tsx                                                        *)
(* ===================================================================== *)

Module App.

(** Where a call of [processLocation] is suspended. *)
Inductive Stage : Type :=
| AwaitWeather
| AwaitNarrative
| AwaitMedia (narrative : string).

(** A suspended call of [processLocation]: its argument, the [currentTheme]
    its closure captured, and the [await] it waits at. *)
Record Run : Type := mkRun {
  runCoords : Coordinates;
  runTheme : ThemeConfig;
  runStage : Stage
}.

(** The component's state hooks and refs, and the runtime's store of
    suspended calls.  [autoModeTimerRef] holds the armed interval, that is
    the [currentTheme] captured by the [processLocation] its callback
    calls. *)
Record Model : Type := mkModel {
  appState : AppState;
  currentLocation : option Coordinates;
  content : option LynchContent;
  autoMode : bool;
  currentTheme : ThemeConfig;
  logs : list string;
  audioContextRef : bool;
  autoModeTimerRef : option ThemeConfig;
  inFlight : gmap nat Run;
  nextRun : nat
}.

Definition initial : Model :=
  mkModel IDLE None None false LYNCH [] false None ∅ 0.

Definition setAppState (s : AppState) (m : Model) : Model :=
  mkModel s (currentLocation m) (content m) (autoMode m) (currentTheme m)
          (logs m) (audioContextRef m) (autoModeTimerRef m) (inFlight m)
          (nextRun m).

Definition setCurrentLocation (c : Coordinates) (m : Model) : Model :=
  mkModel (appState m) (Some c) (content m) (autoMode m) (currentTheme m)
          (logs m) (audioContextRef m) (autoModeTimerRef m) (inFlight m)
          (nextRun m).

Definition setContent (c : LynchContent) (m : Model) : Model :=
  mkModel (appState m) (currentLocation m) (Some c) (autoMode m)
          (currentTheme m) (logs m) (audioContextRef m) (autoModeTimerRef m)
          (inFlight m) (nextRun m).

Definition setAutoMode (b : bool) (m : Model) : Model :=
  mkModel (appState m) (currentLocation m) (content m) b (currentTheme m)
          (logs m) (audioContextRef m) (autoModeTimerRef m) (inFlight m)
          (nextRun m).

Definition setCurrentTheme (t : ThemeConfig) (m : Model) : Model :=
  mkModel (appState m) (currentLocation m) (content m) (autoMode m) t
          (logs m) (audioContextRef m) (autoModeTimerRef m) (inFlight m)
          (nextRun m).

Definition setLogs (f : list string -> list string) (m : Model) : Model :=
  mkModel (appState m) (currentLocation m) (content m) (autoMode m)
          (currentTheme m) (f (logs m)) (audioContextRef m)
          (autoModeTimerRef m) (inFlight m) (nextRun m).

Definition setAudioContextRef (b : bool) (m : Model) : Model :=
  mkModel (appState m) (currentLocation m) (content m) (autoMode m)
          (currentTheme m) (logs m) b (autoModeTimerRef m) (inFlight m)
          (nextRun m).

Definition setAutoModeTimerRef (t : option ThemeConfig) (m : Model) : Model :=
  mkModel (appState m) (currentLocation m) (content m) (autoMode m)
          (currentTheme m) (logs m) (audioContextRef m) t (inFlight m)
          (nextRun m).

(** Suspend a new call at its first [await]. *)
Definition spawn (r : Run) (m : Model) : Model :=
  mkModel (appState m) (currentLocation m) (content m) (autoMode m)
          (currentTheme m) (logs m) (audioContextRef m) (autoModeTimerRef m)
          (<[nextRun m := r]> (inFlight m)) (S (nextRun m)).

(** Suspend call [i] again, at a later [await]. *)
Definition suspend (i : nat) (r : Run) (m : Model) : Model :=
  mkModel (appState m) (currentLocation m) (content m) (autoMode m)
          (currentTheme m) (logs m) (audioContextRef m) (autoModeTimerRef m)
          (<[i := r]> (inFlight m)) (nextRun m).

(** Call [i] has returned. *)
Definition finish (i : nat) (m : Model) : Model :=
  mkModel (appState m) (currentLocation m) (content m) (autoMode m)
          (currentTheme m) (logs m) (audioContextRef m) (autoModeTimerRef m)
          (delete i (inFlight m)) (nextRun m).

(** [addLog]: [setLogs(prev => [msg, ...prev].slice(0, 5))]. *)
Definition pushLog (msg : string) (prev : list string) : list string :=
  firstn 5 (msg :: prev).

Definition addLog (msg : string) (m : Model) : Model :=
  setLogs (pushLog msg) m.

(** A sequence of [addLog] calls. *)
Definition appendAll (msgs : list string) (m : Model) : Model :=
  fold_left (fun m msg => addLog msg m) msgs m.

Definition busy (s : AppState) : bool :=
  match s with
  | FETCHING_WEATHER | GENERATING_NARRATIVE | GENERATING_MEDIA => true
  | IDLE | PLAYING | ERROR => false
  end.

Section Pipeline.

(** The two number-to-text conversions of the runtime used in log lines:
    [Number.prototype.toFixed(2)] and the conversion of a template
    literal. *)
Variable toFixed2 : Q -> string.
Variable numberToString : Q -> string.

(** The [catch] block of [processLocation], entered with [error.message]. *)
Definition userMsg (message : string) : string :=
  if String.eqb message "WEATHER_FAILED" then
    "Error: Unable to establish telemetry link (Weather Service Down)."
  else if String.eqb message "NARRATIVE_FAILED" then
    "Error: Neural synthesis failure (LLM Unresponsive)."
  else if String.eqb message "AUDIO_FAILED" then
    "Error: Audio frequency corruption (TTS Failed)."
  else
    "Error: System failure ("
      ++ (if String.eqb message "" then "Unknown" else message) ++ ").".

Definition catchError (message : string) (m : Model) : Model :=
  let m := setAppState ERROR m in
  addLog (userMsg message) m.

(** [processLocation] up to [await fetchWeatherData(coords)].  [theme] is
    the [currentTheme] of the closure that is called. *)
Definition processLocation (theme : ThemeConfig) (coords : Coordinates)
    (m : Model) : Model :=
  let m := setAppState FETCHING_WEATHER m in
  let m := addLog ("Connecting to coordinates: " ++ toFixed2 (lat coords)
                     ++ ", " ++ toFixed2 (lng coords) ++ "...") m in
  spawn (mkRun coords theme AwaitWeather) m.

(** From the settlement of [fetchWeatherData] to
    [await generateNarrative(weather, currentTheme)]. *)
Definition resumeWeather (i : nat) (r : Run) (weather : Settled WeatherData)
    (m : Model) : Model :=
  match weather with
  | Rejected _ => catchError "WEATHER_FAILED" (finish i m)
  | Fulfilled weather =>
      let m := addLog ("Conditions received. Temp: "
                         ++ numberToString (temperature weather) ++ "Â°C.") m in
      let m := setAppState GENERATING_NARRATIVE m in
      suspend i (mkRun (runCoords r) (runTheme r) AwaitNarrative) m
  end.

(** From the settlement of [generateNarrative] to
    [await Promise.allSettled([...])].  [newAudioContext] is what the
    [AudioContext] constructor does if it is called: [Some message] when it
    throws.  The terrain label is computed here and handed, with the
    narrative, to the two gateway calls; both return promises (an
    [async] function does not throw to its caller), and what they settle
    to arrives with the event that resumes the call. *)
Definition resumeNarrative (i : nat) (r : Run) (narrative : Settled string)
    (newAudioContext : option string) (m : Model) : Model :=
  match narrative with
  | Rejected _ => catchError "NARRATIVE_FAILED" (finish i m)
  | Fulfilled narrative =>
      let m := addLog "Narrative synthesized." m in
      let m := setAppState GENERATING_MEDIA m in
      let m := addLog "Generating audiovisual hallucination..." m in
      match (if audioContextRef m then None else newAudioContext) with
      | Some message => catchError message (finish i m)
      | None =>
          let m := setAudioContextRef true m in
          suspend i (mkRun (runCoords r) (runTheme r) (AwaitMedia narrative)) m
      end
  end.

(** From the settlement of both media promises to the end of the call. *)
Definition resumeMedia (i : nat) (r : Run) (narrative : string)
    (audioBufferResult : Settled AudioBuffer)
    (imageResult : Settled (option string)) (m : Model) : Model :=
  match audioBufferResult with
  | Rejected _ => catchError "AUDIO_FAILED" (finish i m)
  | Fulfilled buffer =>
      let finalImageUrl :=
        match imageResult with
        | Fulfilled value => value
        | Rejected _ => None
        end in
      let m := setContent
                 (mkLynchContent narrative (Some buffer) None finalImageUrl
                                 (runCoords r) (theme_id (runTheme r))) m in
      let m := setAppState PLAYING m in
      let m := addLog "Ready. Playing transmission." m in
      finish i m
  end.

(** [handleSelectLocation], called from the map. *)
Definition handleSelectLocation (coords : Coordinates) (m : Model) : Model :=
  if busy (appState m) then m
  else
    let m := setCurrentLocation coords m in
    processLocation (currentTheme m) coords m.

(** [runAutoLoop]; [r1] and [r2] are the two values of [Math.random()]. *)
Definition runAutoLoop (theme : ThemeConfig) (r1 r2 : Q) (m : Model) : Model :=
  let lat := (r1 * 160 - 80)%Q in
  let lng := (r2 * 360 - 180)%Q in
  processLocation theme (mkCoordinates lat lng) m.

(** The auto-mode effect, run when [autoMode] has changed to [b]. *)
Definition autoModeEffect (b : bool) (r1 r2 : Q) (m : Model) : Model :=
  if b then
    let m := runAutoLoop (currentTheme m) r1 r2 m in
    setAutoModeTimerRef (Some (currentTheme m)) m
  else setAutoModeTimerRef None m.

(** What happens to the component. *)
Inductive Event : Type :=
| SelectLocation (coords : Coordinates)
| ThemeButton (theme : ThemeConfig)
| AutoDriftToggle (checked : bool) (r1 r2 : Q)
| AutoDriftTick (r1 r2 : Q)
| WeatherSettled (i : nat) (weather : Settled WeatherData)
| NarrativeSettled (i : nat) (narrative : Settled string)
                   (newAudioContext : option string)
| MediaSettled (i : nat) (audioBufferResult : Settled AudioBuffer)
               (imageResult : Settled (option string))
| SequenceEnded.

Definition step (m : Model) (e : Event) : Model :=
  match e with
  | SelectLocation coords => handleSelectLocation coords m
  | ThemeButton theme => setCurrentTheme theme m
  | AutoDriftToggle checked r1 r2 =>
      if Bool.eqb checked (autoMode m) then m
      else autoModeEffect checked r1 r2 (setAutoMode checked m)
  | AutoDriftTick r1 r2 =>
      match autoModeTimerRef m with
      | Some theme => runAutoLoop theme r1 r2 m
      | None => m
      end
  | WeatherSettled i weather =>
      match inFlight m !! i with
      | Some (mkRun c t AwaitWeather) =>
          resumeWeather i (mkRun c t AwaitWeather) weather m
      | _ => m
      end
  | NarrativeSettled i narrative newAudioContext =>
      match inFlight m !! i with
      | Some (mkRun c t AwaitNarrative) =>
          resumeNarrative i (mkRun c t AwaitNarrative) narrative
                          newAudioContext m
      | _ => m
      end
  | MediaSettled i audioBufferResult imageResult =>
      match inFlight m !! i with
      | Some (mkRun c t (AwaitMedia narrative)) =>
          resumeMedia i (mkRun c t (AwaitMedia narrative)) narrative
                      audioBufferResult imageResult m
      | _ => m
      end
  | SequenceEnded => addLog "Sequence ended." m
  end.

Definition steps (m : Model) (es : list Event) : Model :=
  fold_left step es m.

End Pipeline.

(** Image generation failed, as [processLocation] sees it: the promise was
    rejected, or [generateSceneryImage] caught the error and answered
    [null]. *)
Definition imageCallThrows (call : GeminiService.ImageCall) : bool :=
  match call with
  | GeminiService.PromptThrows _ | GeminiService.ModelThrows _ => true
  | GeminiService.ModelResponds _ => false
  end.

Inductive ImageFailed : Settled (option string) -> Prop :=
| image_rejected (reason : string) : ImageFailed (Rejected reason)
| image_call_failed (call : GeminiService.ImageCall) :
    imageCallThrows call = true ->
    ImageFailed (GeminiService.generateSceneryImage call).

(** Event [e] makes a run in flight in [m] fail at its weather, narrative
    or speech step. *)
Inductive RunFails (m : Model) : Event -> Prop :=
| fails_at_weather i c t reason :
    inFlight m !! i = Some (mkRun c t AwaitWeather) ->
    RunFails m (WeatherSettled i (Rejected reason))
| fails_at_narrative i c t reason newAudioContext :
    inFlight m !! i = Some (mkRun c t AwaitNarrative) ->
    RunFails m (NarrativeSettled i (Rejected reason) newAudioContext)
| fails_at_speech i c t narrative reason imageResult :
    inFlight m !! i = Some (mkRun c t (AwaitMedia narrative)) ->
    RunFails m (MediaSettled i (Rejected reason) imageResult).

(** The only events through which a run can reach [setContent]. *)
Definition speechFulfilled (e : Event) : bool :=
  match e with
  | MediaSettled _ (Fulfilled _) _ => true
  | _ => false
  end.

(** Events of the auto-drift scheduler that call [runAutoLoop]. *)
Definition autoDrift (e : Event) : bool :=
  match e with
  | AutoDriftToggle true _ _ | AutoDriftTick _ _ => true
  | _ => false
  end.

(** The state a run has set when it waits at a stage. *)
Definition stageState (s : Stage) : AppState :=
  match s with
  | AwaitWeather => FETCHING_WEATHER
  | AwaitNarrative => GENERATING_NARRATIVE
  | AwaitMedia _ => GENERATING_MEDIA
  end.

(** At most one run is in flight, and the state tells which. *)
Definition SingleRun (m : Model) : Prop :=
  autoModeTimerRef m = None
  /\ ((busy (appState m) = false /\ inFlight m = ∅)
      \/ (exists i r, inFlight m = {[i := r]}
                      /\ appState m = stageState (runStage r))).

(** The [disabled] property the component hands to [WorldMap]. *)
Definition AppState_eqb (a b : AppState) : bool :=
  match a, b with
  | IDLE, IDLE | FETCHING_WEATHER, FETCHING_WEATHER
  | GENERATING_NARRATIVE, GENERATING_NARRATIVE
  | GENERATING_MEDIA, GENERATING_MEDIA | PLAYING, PLAYING | ERROR, ERROR => true
  | _, _ => false
  end.

Definition mapDisabled (m : Model) : bool :=
  AppState_eqb (appState m) FETCHING_WEATHER
  || AppState_eqb (appState m) GENERATING_MEDIA
  || AppState_eqb (appState m) GENERATING_NARRATIVE.

(** A click on the map overlay, and a click on a city marker, through the
    handlers of [WorldMap] into [onSelectLocation={handleSelectLocation}]. *)
Definition clickMap (toFixed2 : Q -> string) (rect : WorldMap.DOMRect)
    (e : WorldMap.MouseEvent) (m : Model) : Model :=
  match WorldMap.handleClick (mapDisabled m) (Some rect) e with
  | Some coords => handleSelectLocation toFixed2 coords m
  | None => m
  end.

Definition clickCity (toFixed2 : Q -> string) (city : CityWeather)
    (m : Model) : Model :=
  match WorldMap.handleCityClick (mapDisabled m) city with
  | Some coords => handleSelectLocation toFixed2 coords m
  | None => m
  end.

End App.

(* ===================================================================== *)
(** ** src/components/LynchPlayer.tsx                                     *)
(* ===================================================================== *)

Module LynchPlayer.

(** An [AudioBufferSourceNode], by identity. *)
Inductive SourceNode : Type := SourceNodeRef (n : nat).

Definition SourceNode_eqb (a b : SourceNode) : bool :=
  match a, b with SourceNodeRef x, SourceNodeRef y => Nat.eqb x y end.

(** One painted frame: the source whose [visualize] call made the [draw]
    closure that painted, and [sourceNodeRef.current] at that moment. *)
Record Frame : Type := mkFrame {
  painter : SourceNode;
  live : option SourceNode
}.

(** The component's hooks and refs, the animation-frame queue of the
    browser ([scheduled]: one entry per queued [draw] closure, named by the
    source it was made for) and what has been painted, latest first. *)
Record Model : Type := mkModel {
  isPlaying : bool;
  sourceNodeRef : option SourceNode;
  canvasRef : bool;
  scheduled : list SourceNode;
  frames : list Frame;
  nextSource : nat
}.

Definition initial : Model := mkModel false None true [] [] 0.

(** [stopPlayback] (the video element is absent: [videoUrl] is always
    [null] in the bundles the pipeline builds). *)
Definition stopPlayback (m : Model) : Model :=
  mkModel false None (canvasRef m) (scheduled m) (frames m) (nextSource m).

(** One call of a [draw] closure. *)
Definition draw (loop : SourceNode) (m : Model) : Model :=
  match sourceNodeRef m with
  | None => m
  | Some _ =>
      mkModel (isPlaying m) (sourceNodeRef m) (canvasRef m)
              (scheduled m ++ [loop])
              (mkFrame loop (sourceNodeRef m) :: frames m)
              (nextSource m)
  end.

(** [visualize]: builds the analyser and calls [draw] once. *)
Definition visualize (source : SourceNode) (m : Model) : Model :=
  if canvasRef m then draw source m else m.

(** [startPlayback]; [isPlaying_seen] is the [isPlaying] of the render whose
    closure is called, [audioBuffer] is [content.audioBuffer].  The audio
    context is taken to be running, so the call does not wait at
    [await resume()]. *)
Definition startPlayback (isPlaying_seen : bool)
    (audioBuffer : option AudioBuffer) (m : Model) : Model :=
  if isPlaying_seen then m
  else match audioBuffer with
       | None => m
       | Some _ =>
           let source := SourceNodeRef (nextSource m) in
           let m := mkModel true (Some source) (canvasRef m) (scheduled m)
                            (frames m) (S (nextSource m)) in
           visualize source m
       end.

(** [source.onended]. *)
Definition onended (m : Model) : Model :=
  mkModel false (sourceNodeRef m) (canvasRef m) (scheduled m) (frames m)
          (nextSource m).

(** A display refresh: every closure queued before it is called once;
    what they queue waits for the next refresh. *)
Definition animationFrame (m : Model) : Model :=
  fold_left (fun m loop => draw loop m) (scheduled m)
            (mkModel (isPlaying m) (sourceNodeRef m) (canvasRef m) []
                     (frames m) (nextSource m)).

Inductive Event : Type :=
| Mount (audioBuffer : option AudioBuffer)
| ContentChanged (audioBuffer : option AudioBuffer)
| ReplayButton (audioBuffer : option AudioBuffer)
| Ended
| AnimationFrame
| Unmount.

(** The effects of the component ([autoPlay] is always [true]): on a new
    [content] the cleanup of the old effect runs [stopPlayback], then the
    new effect calls the [startPlayback] of the new render, whose
    [isPlaying] is the one rendered before the cleanup. *)
Definition step (m : Model) (e : Event) : Model :=
  match e with
  | Mount audioBuffer => startPlayback (isPlaying m) audioBuffer m
  | ContentChanged audioBuffer =>
      let seen := isPlaying m in
      startPlayback seen audioBuffer (stopPlayback m)
  | ReplayButton audioBuffer =>
      if isPlaying m then m else startPlayback (isPlaying m) audioBuffer m
  | Ended => onended m
  | AnimationFrame => animationFrame m
  | Unmount => stopPlayback m
  end.

Definition steps (m : Model) (es : list Event) : Model :=
  fold_left step es m.

(** Loop [loop] painted while another source was the live one. *)
Definition staleFrame (loop : SourceNode) (f : Frame) : bool :=
  SourceNode_eqb (painter f) loop
  && match live f with
     | Some s => negb (SourceNode_eqb s loop)
     | None => true
     end.

(** The bars one call of [draw] paints: [fillStyle] is the theme's colour
    for all of them, [globalAlpha] and the rectangle of [fillRect] are
    kept. *)
Record Bar : Type := mkBar {
  globalAlpha : Q;
  barX : Q;
  barY : Q;
  barW : Q;
  barH : Q
}.

(** The [for] loop of [draw] from the bin at hand on, [x] being the running
    abscissa. *)
Fixpoint fillBars (canvasHeight barWidth x : Q) (dataArray : list Z)
    : list Bar :=
  match dataArray with
  | [] => []
  | value :: rest =>
      let barHeight := inject_Z value in
      mkBar (barHeight / 255) x (canvasHeight - barHeight / 2) barWidth
            (barHeight / 2)
        :: fillBars canvasHeight barWidth (x + (barWidth + 1))%Q rest
  end.

(** The painting part of [draw]; [bufferLength] is the length of
    [dataArray] ([analyzer.frequencyBinCount]). *)
Definition paint (canvasWidth canvasHeight : Q) (dataArray : list Z)
    : list Bar :=
  let bufferLength := inject_Z (Z.of_nat (length dataArray)) in
  let barWidth := ((canvasWidth / bufferLength) * (25 # 10))%Q in
  fillBars canvasHeight barWidth 0 dataArray.

(** The canvas element ([width="600" height="50"]) and the analyser
    ([fftSize = 256], hence 128 bins). *)
Definition canvasWidth : Q := 600%Q.
Definition canvasHeight : Q := 50%Q.
Definition fftSize : nat := 256.
Definition frequencyBinCount : nat := fftSize / 2.

End LynchPlayer.

(* ===================================================================== *)
(** ** Sample inputs                                                      *)
(* ===================================================================== *)

Module Sample.

Definition digits (n : Z) : string :=
  NilZero.string_of_uint (N.to_uint (Z.to_N n)).

(** [Number.prototype.toFixed(2)] on a rational: the nearest multiple of
    1/100, the larger one on a tie, after the sign.  The properties below
    hold for any rendering; this one runs the samples. *)
Definition toFixed2 (q : Q) : string :=
  let n := Qfloor (Qabs q * 100 + (1 # 2)) in
  let frac := (n mod 100)%Z in
  (if Qlt_le_dec q 0 then "-" else "")
    ++ digits (n / 100) ++ "."
    ++ (if (frac <? 10)%Z then "0" else "") ++ digits frac.

Definition losAngeles : Coordinates := mkCoordinates (3405 # 100) (-11824 # 100).

Definition mild : WeatherData := mkWeatherData (185 # 10) (72 # 10) 3.

Definition monologue : string := "The wind hums like a transformer.".

(** A run started from the map that has reached the narrative step. *)
Definition atNarrative : App.Model :=
  App.steps toFixed2 toFixed2 App.initial
    [App.SelectLocation losAngeles; App.WeatherSettled 0 (Fulfilled mild)].

(** The same run, now waiting for speech and image. *)
Definition atMedia : App.Model :=
  App.step toFixed2 toFixed2 atNarrative
    (App.NarrativeSettled 0 (Fulfilled monologue) None).

(** A bundle is on display, and a second run waits for speech and image. *)
Definition secondRunAtMedia : App.Model :=
  App.steps toFixed2 toFixed2 atMedia
    [App.MediaSettled 0 (Fulfilled (AudioBufferRef 0)) (Fulfilled None);
     App.SelectLocation (mkCoordinates 70 120);
     App.WeatherSettled 1 (Fulfilled mild);
     App.NarrativeSettled 1 (Fulfilled monologue) None].

End Sample.

(* ===================================================================== *)
(** * Properties                                                          *)
(* ===================================================================== *)

(** ** Terrain classifier *)

Section Terrain.
Import WeatherService.
Local Open Scope Q_scope.

Lemma Qltb_true (a b : Q) : Qltb a b = true <-> a < b.
Proof.
  unfold Qltb. destruct (Qlt_le_dec a b) as [Hlt | Hle]; split; intro H;
    try reflexivity; try assumption; try discriminate.
  exfalso. apply (Qlt_not_le _ _ H Hle).
Qed.

Lemma Qltb_false (a b : Q) : Qltb a b = false <-> ~ a < b.
Proof.
  rewrite <- Qltb_true. destruct (Qltb a b); split; intro H;
    try reflexivity; try discriminate; try (intro; discriminate).
  exfalso. apply H. reflexivity.
Qed.

(** C5. The terrain classifier is a total function of the coordinate that
    tries its rules in a fixed order, the first matching rule giving the
    label: [|lat| > 60] gives "frozen tundra"; failing that,
    [|lat| < 20] and [|lng| < 30] give "dense jungle"; failing that,
    [20 < |lat| < 40] and [|lng| > 100] give "lonely desert highway";
    failing all three the label is the generic wasteland one.  The five
    sample points of the specification get the labels it lists. *)
Theorem terrain_priority_order :
  (forall lat lng : Q,
      (60 < Qabs lat -> getTerrainDescription lat lng = "frozen tundra")
      /\ (~ 60 < Qabs lat -> Qabs lat < 20 /\ Qabs lng < 30 ->
          getTerrainDescription lat lng = "dense jungle")
      /\ (~ 60 < Qabs lat -> ~ (Qabs lat < 20 /\ Qabs lng < 30) ->
          20 < Qabs lat /\ Qabs lat < 40 /\ 100 < Qabs lng ->
          getTerrainDescription lat lng = "lonely desert highway")
      /\ (~ 60 < Qabs lat -> ~ (Qabs lat < 20 /\ Qabs lng < 30) ->
          ~ (20 < Qabs lat /\ Qabs lat < 40 /\ 100 < Qabs lng) ->
          getTerrainDescription lat lng = "an industrial wasteland"))
  /\ getTerrainDescription 70 0 = "frozen tundra"
  /\ getTerrainDescription 10 10 = "dense jungle"
  /\ getTerrainDescription 30 120 = "lonely desert highway"
  /\ getTerrainDescription 70 120 = "frozen tundra"
  /\ getTerrainDescription 0 150 = "an industrial wasteland".
Proof.
  split; [ | repeat split; reflexivity ].
  intros lat lng. unfold getTerrainDescription.
  destruct (Qltb 60 (Qabs lat)) eqn:E60.
  - apply Qltb_true in E60. repeat split; intros; try reflexivity; contradiction.
  - apply Qltb_false in E60.
    destruct (Qltb (Qabs lat) 20) eqn:E20; destruct (Qltb (Qabs lng) 30) eqn:E30;
      destruct (Qltb 20 (Qabs lat)) eqn:E20'; destruct (Qltb (Qabs lat) 40) eqn:E40;
      destruct (Qltb 100 (Qabs lng)) eqn:E100; cbn [andb];
      repeat match goal with
             | H : Qltb _ _ = true |- _ => apply Qltb_true in H
             | H : Qltb _ _ = false |- _ => apply Qltb_false in H
             end;
      repeat split; intros; try reflexivity; try contradiction;
      try tauto.
Qed.

Lemma terrain_priority_order_witness :
  getTerrainDescription 30 120 = "lonely desert highway".
Proof.
  destruct terrain_priority_order as [H _].
  destruct (H 30 120) as (_ & _ & Hdesert & _).
  apply Hdesert.
  - cbv. discriminate.
  - cbv. intros [H1 _]. discriminate H1.
  - cbv. repeat split.
Defined.

End Terrain.

(** ** Coordinate mapper and subsolar longitude *)

Section Mapper.
Import WorldMap.
Local Open Scope Q_scope.

(** Clicking the point where a marker is drawn gives back the marker's
    coordinate, on any viewport whose sides are not zero. *)
Lemma click_on_marker (la ln : Q) (rect : DOMRect) :
  ~ width rect == 0 -> ~ height rect == 0 ->
  exists c : Coordinates,
    handleClick false (Some rect) (percentToClient rect (getPos la ln)) = Some c
    /\ lat c == la /\ lng c == ln.
Proof.
  intros Hw Hh. eexists. split; [ reflexivity | ].
  cbn [lat lng getPos percentToClient clientX clientY leftPct topPct].
  split; field; assumption.
Qed.

(** C6. For every latitude in [-90, 90] and longitude in [-180, 180],
    taking the screen percentages of [getPos], scaling them onto a viewport
    of positive width and height and mapping the point back with the click
    handler's formulas returns the original latitude and longitude, in
    exact arithmetic. *)
Theorem mapper_round_trip (la ln : Q) (rect : DOMRect) :
  -90 <= la <= 90 -> -180 <= ln <= 180 ->
  0 < width rect -> 0 < height rect ->
  leftPct (getPos la ln) == ((ln + 180) / 360) * 100
  /\ topPct (getPos la ln) == ((90 - la) / 180) * 100
  /\ exists c : Coordinates,
      handleClick false (Some rect) (percentToClient rect (getPos la ln))
        = Some c
      /\ lat c == la /\ lng c == ln.
Proof.
  intros _ _ Hw Hh. split; [ reflexivity | split; [ reflexivity | ] ].
  apply click_on_marker; intro H; rewrite H in *;
    [ apply (Qlt_irrefl 0 Hw) | apply (Qlt_irrefl 0 Hh) ].
Qed.

Lemma mapper_round_trip_witness :
  exists c : Coordinates,
    handleClick false (Some (mkDOMRect 8 16 600 300))
                (percentToClient (mkDOMRect 8 16 600 300)
                                 (getPos (3405 # 100) (-11824 # 100)))
      = Some c
    /\ lat c == 3405 # 100 /\ lng c == -11824 # 100.
Proof.
  apply (mapper_round_trip (3405 # 100) (-11824 # 100)
                           (mkDOMRect 8 16 600 300));
    cbn [width height]; lra.
Defined.

Lemma sunLng_cases (u : Q) :
  (-180 <= sunLngRaw u <= 180 -> sunLng u == sunLngRaw u)
  /\ (sunLngRaw u < -180 -> sunLng u == sunLngRaw u + 360)
  /\ (180 < sunLngRaw u -> sunLng u == sunLngRaw u - 360).
Proof.
  unfold sunLng, sunLngRaw.
  destruct (Qlt_le_dec ((12 - u) * 15) (-180)) as [Hlo | Hlo].
  - destruct (Qlt_le_dec 180 ((12 - u) * 15 + 360)) as [Hhi | Hhi].
    + lra.
    + repeat split; intros; try reflexivity; lra.
  - destruct (Qlt_le_dec 180 ((12 - u) * 15)) as [Hhi | Hhi];
      repeat split; intros; try reflexivity; lra.
Qed.

(** C7. For every [utcHours] in [0, 24) the subsolar longitude computed
    from [(12 - utcHours) * 15] lies in [-180, 180]; the code wraps by 360
    at most once, and only when the raw value is outside [-180, 180] (which
    never happens on that range, so the result is the raw value); at
    [utcHours = 12] the longitude is 0 and at [utcHours = 0] it is 180. *)
Theorem sun_longitude_in_range :
  (forall u : Q, 0 <= u -> u < 24 ->
      -180 <= sunLng u <= 180 /\ sunLng u == sunLngRaw u)
  /\ (forall u : Q,
        (-180 <= sunLngRaw u <= 180 -> sunLng u == sunLngRaw u)
        /\ (sunLngRaw u < -180 -> sunLng u == sunLngRaw u + 360)
        /\ (180 < sunLngRaw u -> sunLng u == sunLngRaw u - 360))
  /\ sunLng 12 == 0
  /\ sunLng 0 == 180.
Proof.
  split; [ | split; [ exact sunLng_cases | ] ].
  - intros u H0 H24.
    destruct (sunLng_cases u) as [Hin _].
    assert (Hraw : -180 <= sunLngRaw u <= 180) by (unfold sunLngRaw; lra).
    specialize (Hin Hraw). rewrite Hin. split; [ exact Hraw | reflexivity ].
  - split; reflexivity.
Qed.

Lemma sun_longitude_in_range_witness :
  -180 <= sunLng (utcHours 23 59) <= 180
  /\ sunLng (utcHours 23 59) == sunLngRaw (utcHours 23 59).
Proof.
  destruct sun_longitude_in_range as [H _].
  apply (H (utcHours 23 59)); vm_compute; first [ reflexivity | discriminate ].
Defined.

End Mapper.

(** ** Log buffer *)

Section LogBuffer.
Import App.

Lemma firstn_app_firstn {A : Type} (n : nat) (l l' : list A) :
  firstn n (l ++ firstn n l') = firstn n (l ++ l').
Proof.
  rewrite !firstn_app, firstn_firstn.
  replace (Nat.min (n - length l) n) with (n - length l)%nat by lia.
  reflexivity.
Qed.

Lemma pushLog_all (msgs prev : list string) :
  length prev <= 5 ->
  fold_left (fun buffer msg => pushLog msg buffer) msgs prev
  = firstn 5 (rev msgs ++ prev).
Proof.
  revert prev. induction msgs as [ | msg msgs IH ]; intros prev Hlen;
    cbn [fold_left rev].
  - cbn [app]. symmetry. apply firstn_all2. exact Hlen.
  - rewrite IH by (unfold pushLog; rewrite length_firstn; lia).
    unfold pushLog. rewrite firstn_app_firstn, <- app_assoc. reflexivity.
Qed.

Lemma logs_appendAll (msgs : list string) (m : Model) :
  logs (appendAll msgs m)
  = fold_left (fun buffer msg => pushLog msg buffer) msgs (logs m).
Proof.
  unfold appendAll. revert m.
  induction msgs as [ | msg msgs IH ]; intro m; cbn [fold_left];
    [ reflexivity | ].
  rewrite IH. reflexivity.
Qed.

(** C8. Whatever messages are appended, the log buffer holds the five most
    recent of them (all of them when there are fewer), the most recent
    first, and never more than five entries; after seven appends to an
    empty buffer it holds the entries 7, 6, 5, 4, 3 in that order. *)
Theorem log_buffer_five_most_recent :
  (forall (m : Model) (msgs : list string),
      logs m = [] ->
      logs (appendAll msgs m) = firstn 5 (rev msgs)
      /\ length (logs (appendAll msgs m)) <= 5)
  /\ (forall (m : Model) (msgs : list string),
        length (logs m) <= 5 ->
        logs (appendAll msgs m) = firstn 5 (rev msgs ++ logs m))
  /\ logs (appendAll ["1"; "2"; "3"; "4"; "5"; "6"; "7"] initial)
     = ["7"; "6"; "5"; "4"; "3"].
Proof.
  split; [ | split ].
  - intros m msgs Hempty. rewrite logs_appendAll, Hempty.
    rewrite pushLog_all by (cbn; lia). rewrite app_nil_r.
    split; [ reflexivity | ]. rewrite length_firstn. lia.
  - intros m msgs Hlen. rewrite logs_appendAll. apply pushLog_all, Hlen.
  - reflexivity.
Qed.

Lemma log_buffer_five_most_recent_witness :
  logs (appendAll ["a"; "b"; "c"; "d"; "e"; "f"] initial)
  = ["f"; "e"; "d"; "c"; "b"]
  /\ length (logs (appendAll ["a"; "b"; "c"; "d"; "e"; "f"] initial)) <= 5.
Proof.
  destruct log_buffer_five_most_recent as [H _].
  apply (H initial ["a"; "b"; "c"; "d"; "e"; "f"]). reflexivity.
Defined.

End LogBuffer.

(** ** Generation orchestrator *)

Section Orchestrator.
Import App.

Variable toFixed2 : Q -> string.
Variable numberToString : Q -> string.

Local Abbreviation step := (App.step toFixed2 numberToString).
Local Abbreviation steps := (App.steps toFixed2 numberToString).

(** The [catch] block touches the state and the log buffer only. *)
Lemma catchError_frame (message : string) (m : Model) :
  let m' := catchError message m in
  appState m' = ERROR
  /\ logs m' = pushLog (userMsg message) (logs m)
  /\ content m' = content m
  /\ currentLocation m' = currentLocation m
  /\ autoMode m' = autoMode m
  /\ currentTheme m' = currentTheme m
  /\ audioContextRef m' = audioContextRef m
  /\ autoModeTimerRef m' = autoModeTimerRef m
  /\ inFlight m' = inFlight m.
Proof. repeat split. Qed.

(** The speech gateway rejects when the model call throws and when the
    answer carries no audio payload. *)
Lemma generateSpeech_rejects (call : GeminiService.SpeechCall) :
  (exists message, call = GeminiService.SpeechThrows message)
  \/ (exists decoded, call = GeminiService.SpeechResponds None decoded)
  \/ (exists decoded, call = GeminiService.SpeechResponds (Some "") decoded) ->
  exists reason, GeminiService.generateSpeech call = Rejected reason.
Proof.
  intros [ [ message -> ] | [ [ decoded -> ] | [ decoded -> ] ] ];
    eexists; reflexivity.
Qed.

(** C1. When the run suspended at the media step sees its speech promise
    rejected, it ends in the [ERROR] state through the error
    ["AUDIO_FAILED"], whose message is logged, whatever the image promise
    did: [setContent] is not reached, so no bundle is assembled and a
    fulfilled image is dropped, and the run is over. *)
Theorem speech_rejected_is_audio_failed
    (m : Model) (i : nat) (c : Coordinates) (t : ThemeConfig)
    (narrative reason : string) (imageResult : Settled (option string)) :
  inFlight m !! i = Some (mkRun c t (AwaitMedia narrative)) ->
  let m' := step m (MediaSettled i (Rejected reason) imageResult) in
  m' = catchError "AUDIO_FAILED" (finish i m)
  /\ appState m' = ERROR
  /\ head (logs m') = Some "Error: Audio frequency corruption (TTS Failed)."
  /\ content m' = content m
  /\ inFlight m' !! i = None.
Proof.
  intros Hrun m'. subst m'. cbn [App.step]. rewrite Hrun. cbn [resumeMedia].
  repeat split. cbn. apply lookup_delete_eq.
Qed.

(** C2. When the run suspended at the media step sees its speech promise
    fulfilled and image generation failed (its promise rejected, or the
    gateway caught the error and answered [null]), the run does not fail: it
    assembles the bundle with [imageUrl] set to [null] and moves to
    [PLAYING]. *)
Theorem image_failure_is_not_fatal
    (m : Model) (i : nat) (c : Coordinates) (t : ThemeConfig)
    (narrative : string) (buffer : AudioBuffer)
    (imageResult : Settled (option string)) :
  inFlight m !! i = Some (mkRun c t (AwaitMedia narrative)) ->
  ImageFailed imageResult ->
  let m' := step m (MediaSettled i (Fulfilled buffer) imageResult) in
  appState m' = PLAYING
  /\ content m'
     = Some (mkLynchContent narrative (Some buffer) None None c (theme_id t))
  /\ head (logs m') = Some "Ready. Playing transmission."
  /\ inFlight m' !! i = None.
Proof.
  intros Hrun Hfail m'. subst m'. cbn [App.step]. rewrite Hrun.
  assert (Hnull : match imageResult with
                  | Fulfilled value => value
                  | Rejected _ => None
                  end = None).
  { destruct Hfail as [ reason | call Hthrows ]; [ reflexivity | ].
    destruct call; [ reflexivity | reflexivity | discriminate Hthrows ]. }
  unfold resumeMedia. rewrite Hnull.
  repeat split. cbn. apply lookup_delete_eq.
Qed.

(** C3. In each of the states [FETCHING_WEATHER], [GENERATING_NARRATIVE]
    and [GENERATING_MEDIA], and for every coordinate, submitting the
    coordinate changes nothing: the state, the selection, the content
    bundle, the log buffer and the runs in flight are as before, so no run
    begins. *)
Theorem busy_submit_is_noop (m : Model) (coords : Coordinates) :
  appState m = FETCHING_WEATHER
  \/ appState m = GENERATING_NARRATIVE
  \/ appState m = GENERATING_MEDIA ->
  let m' := step m (SelectLocation coords) in
  m' = m
  /\ appState m' = appState m
  /\ currentLocation m' = currentLocation m
  /\ content m' = content m
  /\ logs m' = logs m
  /\ inFlight m' = inFlight m.
Proof.
  intros Hbusy m'. subst m'. cbn [App.step]. unfold handleSelectLocation.
  assert (Hb : busy (appState m) = true)
    by (destruct Hbusy as [ -> | [ -> | -> ] ]; reflexivity).
  rewrite Hb. repeat split.
Qed.

(** Only a fulfilled speech promise lets an event replace the bundle. *)
Lemma step_content (m : Model) (e : Event) :
  speechFulfilled e = false -> content (step m e) = content m.
Proof.
  intro Hsafe. destruct e as [ coords | theme | checked r1 r2 | r1 r2
                             | i weather | i narrative ctx
                             | i audio image | ]; cbn [App.step].
  - unfold handleSelectLocation. destruct (busy (appState m)); reflexivity.
  - reflexivity.
  - destruct (Bool.eqb checked (autoMode m)); [ reflexivity | ].
    destruct checked; reflexivity.
  - destruct (autoModeTimerRef m); reflexivity.
  - destruct (inFlight m !! i) as [ [ c t [ | | n ] ] | ]; try reflexivity.
    destruct weather; reflexivity.
  - destruct (inFlight m !! i) as [ [ c t [ | | n ] ] | ]; try reflexivity.
    destruct narrative as [ narrative | reason ]; [ | reflexivity ].
    cbn. destruct (audioContextRef m); [ reflexivity | ].
    destruct ctx; reflexivity.
  - destruct (inFlight m !! i) as [ [ c t [ | | n ] ] | ]; try reflexivity.
    destruct audio; [ discriminate Hsafe | reflexivity ].
  - reflexivity.
Qed.

Lemma steps_content (es : list Event) (m : Model) :
  forallb (fun e => negb (speechFulfilled e)) es = true ->
  content (steps m es) = content m.
Proof.
  revert m. induction es as [ | e es IH ]; intros m Hsafe; [ reflexivity | ].
  cbn [forallb] in Hsafe. apply andb_prop in Hsafe as [ He Hes ].
  unfold App.steps. cbn [fold_left]. fold (steps (step m e) es).
  rewrite (IH _ Hes). apply step_content.
  destruct (speechFulfilled e); [ discriminate He | reflexivity ].
Qed.

(** C10. When a run fails at its weather, narrative or speech step, the
    failure handler sets the state to [ERROR] and appends one log line, and
    changes nothing else of the component: the content bundle (that of the
    previous successful run, if any) is neither cleared nor replaced, nor
    are the selection, the theme, the auto-drift flag and timer, and the
    audio context.  More generally the bundle is the same after any
    sequence of events in which no speech promise is fulfilled. *)
Theorem failed_run_keeps_content :
  (forall (m : Model) (e : Event),
      RunFails m e ->
      let m' := step m e in
      appState m' = ERROR
      /\ (exists line : string, logs m' = pushLog line (logs m))
      /\ content m' = content m
      /\ currentLocation m' = currentLocation m
      /\ autoMode m' = autoMode m
      /\ currentTheme m' = currentTheme m
      /\ audioContextRef m' = audioContextRef m
      /\ autoModeTimerRef m' = autoModeTimerRef m)
  /\ (forall (m : Model) (es : list Event),
        forallb (fun e => negb (speechFulfilled e)) es = true ->
        content (steps m es) = content m).
Proof.
  split; [ | intros m es; apply steps_content ].
  intros m e Hfails m'. subst m'.
  destruct Hfails as [ i c t reason Hrun | i c t reason ctx Hrun
                     | i c t narrative reason image Hrun ];
    cbn [App.step]; rewrite Hrun;
    cbn [resumeWeather resumeNarrative resumeMedia];
    (split; [ reflexivity | split; [ eexists; reflexivity | ] ]);
    repeat split.
Qed.

(** Projections of the updated model, without unfolding the store. *)
Ltac model_fields :=
  lazy beta iota zeta delta
    [resumeWeather resumeNarrative resumeMedia catchError addLog setLogs
     setAppState setAudioContextRef setContent setCurrentLocation
     setAutoMode setAutoModeTimerRef setCurrentTheme autoModeEffect
     suspend finish spawn appState currentLocation content autoMode
     currentTheme logs audioContextRef autoModeTimerRef inFlight nextRun
     runCoords runTheme runStage stageState SingleRun].

Ltac idle_case :=
  rewrite lookup_empty; split; [ reflexivity | left; split; auto ].

Ltac same_run :=
  split; [ reflexivity | right; eexists _, _; split; reflexivity ].

Ltac other_run Hne :=
  rewrite lookup_singleton_ne by congruence; same_run.

Ltac run_goes_on :=
  model_fields; split; [ reflexivity | right ];
  rewrite insert_singleton_eq; eexists _, _; split; reflexivity.

Ltac run_ends :=
  model_fields; split; [ reflexivity | left ];
  rewrite delete_singleton_eq; split; reflexivity.

(** The guard of [handleSelectLocation] does its work: as long as the
    auto-drift scheduler starts nothing, at most one run is in flight and
    the state is the one that run has set. *)
Lemma step_SingleRun (m : Model) (e : Event) :
  autoDrift e = false -> SingleRun m -> SingleRun (step m e).
Proof.
  intros Hauto [ Htimer Hruns ].
  destruct m as [ st loc cnt auto theme lg ctx timer runs next ].
  cbn in Htimer, Hruns. subst timer.
  destruct e as [ coords | th | checked r1 r2 | r1 r2
                | i weather | i narrative newctx
                | i audio image | ]; cbn [App.step]; model_fields.
  - unfold handleSelectLocation. model_fields.
    destruct (busy st) eqn:Hbusy;
      [ split; [ reflexivity | model_fields; rewrite Hbusy; exact Hruns ] | ].
    destruct Hruns as [ [ _ -> ] | ( j & r & -> & -> ) ].
    + split; [ reflexivity | right ]. unfold processLocation. model_fields.
      eexists _, _. rewrite insert_empty. split; reflexivity.
    + destruct r as [ c t [ | | n ] ]; discriminate Hbusy.
  - split; [ reflexivity | exact Hruns ].
  - destruct checked; [ discriminate Hauto | ].
    destruct (Bool.eqb false auto); split; try reflexivity; exact Hruns.
  - discriminate Hauto.
  - destruct Hruns as [ [ Hidle -> ] | ( j & r & -> & -> ) ]; [ idle_case | ].
    destruct (decide (i = j)) as [ -> | Hne ]; [ | other_run Hne ].
    rewrite lookup_singleton_eq.
    destruct r as [ c t [ | | n ] ]; try same_run.
    destruct weather as [ weather | reason ];
      [ run_goes_on | run_ends ].
  - destruct Hruns as [ [ Hidle -> ] | ( j & r & -> & -> ) ]; [ idle_case | ].
    destruct (decide (i = j)) as [ -> | Hne ]; [ | other_run Hne ].
    rewrite lookup_singleton_eq.
    destruct r as [ c t [ | | n ] ]; try same_run.
    destruct narrative as [ narrative | reason ]; [ | run_ends ].
    model_fields. destruct (if ctx then None else newctx) as [ message | ];
      [ run_ends | run_goes_on ].
  - destruct Hruns as [ [ Hidle -> ] | ( j & r & -> & -> ) ]; [ idle_case | ].
    destruct (decide (i = j)) as [ -> | Hne ]; [ | other_run Hne ].
    rewrite lookup_singleton_eq.
    destruct r as [ c t [ | | n ] ]; try same_run.
    destruct audio as [ buffer | reason ]; run_ends.
  - split; [ reflexivity | exact Hruns ].
Qed.

Lemma steps_SingleRun (es : list Event) (m : Model) :
  forallb (fun e => negb (autoDrift e)) es = true ->
  SingleRun m -> size (inFlight (steps m es)) <= 1.
Proof.
  intros Hes Hm.
  assert (Hinv : SingleRun (steps m es)).
  { revert m Hm. induction es as [ | e es IH ]; intros m Hm; [ exact Hm | ].
    cbn [forallb] in Hes. apply andb_prop in Hes as [ He Hes ].
    unfold App.steps. cbn [fold_left]. apply (IH Hes).
    apply step_SingleRun; [ | exact Hm ].
    destruct (autoDrift e); [ discriminate He | reflexivity ]. }
  destruct Hinv as [ _ [ [ _ -> ] | ( j & r & -> & _ ) ] ].
  - rewrite map_size_empty. lia.
  - rewrite map_size_singleton. lia.
Qed.

(** [runAutoLoop] does not look at the state: with the interval armed, a
    tick starts a run in every state. *)
Lemma auto_tick_starts_run (m : Model) (t : ThemeConfig) (r1 r2 : Q) :
  autoModeTimerRef m = Some t ->
  let m' := step m (AutoDriftTick r1 r2) in
  appState m' = FETCHING_WEATHER
  /\ inFlight m' !! nextRun m
     = Some (mkRun (mkCoordinates (r1 * 160 - 80) (r2 * 360 - 180)) t
                   AwaitWeather).
Proof.
  intros Htimer m'. subst m'. cbn [App.step]. rewrite Htimer.
  split; [ reflexivity | ]. unfold runAutoLoop, processLocation.
  model_fields. apply lookup_insert_eq.
Qed.

(** C4, what the code does.  A run started from the map waits at the
    narrative step, in state [GENERATING_NARRATIVE].  Switching auto-drift
    on calls [processLocation] directly: the state becomes
    [FETCHING_WEATHER] and two runs are in flight; the next tick of the
    interval adds a third.  The same click on the map is ignored. *)
Theorem auto_drift_overlaps_run_in_flight :
  let m0 := steps initial
              [SelectLocation (mkCoordinates 10 10);
               WeatherSettled 0 (Fulfilled (mkWeatherData 20 5 0))] in
  let m1 := step m0 (AutoDriftToggle true (1 # 2) (1 # 2)) in
  let m2 := step m1 (AutoDriftTick (1 # 4) (3 # 4)) in
  (appState m0 = GENERATING_NARRATIVE /\ size (inFlight m0) = 1)
  /\ (appState m1 = FETCHING_WEATHER /\ size (inFlight m1) = 2)
  /\ (appState m2 = FETCHING_WEATHER /\ size (inFlight m2) = 3)
  /\ step m0 (SelectLocation (mkCoordinates 0 0)) = m0.
Proof.
  cbv zeta. repeat split; vm_compute; reflexivity.
Qed.

End Orchestrator.

Section OrchestratorSamples.
Import App Sample.

Local Abbreviation step := (App.step toFixed2 toFixed2).

Lemma speech_rejected_is_audio_failed_witness :
  inFlight atMedia !! 0
  = Some (mkRun losAngeles LYNCH (AwaitMedia monologue))
  /\ appState (step atMedia
                    (MediaSettled 0 (Rejected "No audio data returned")
                                  (Fulfilled (Some "data:image/png;base64,AA"))))
     = ERROR
  /\ content (step atMedia
                   (MediaSettled 0 (Rejected "No audio data returned")
                                 (Fulfilled (Some "data:image/png;base64,AA"))))
     = None.
Proof.
  split; [ reflexivity | ].
  destruct (speech_rejected_is_audio_failed toFixed2 toFixed2 atMedia 0
              losAngeles LYNCH monologue "No audio data returned"
              (Fulfilled (Some "data:image/png;base64,AA")) eq_refl)
    as (_ & Hstate & _ & Hcontent & _).
  split; [ exact Hstate | exact Hcontent ].
Defined.

Lemma image_failure_is_not_fatal_witness :
  appState (step atMedia
              (MediaSettled 0 (Fulfilled (AudioBufferRef 7))
                 (GeminiService.generateSceneryImage
                    (GeminiService.ModelThrows "quota"))))
  = PLAYING
  /\ content (step atMedia
                 (MediaSettled 0 (Fulfilled (AudioBufferRef 7))
                    (GeminiService.generateSceneryImage
                       (GeminiService.ModelThrows "quota"))))
     = Some (mkLynchContent monologue (Some (AudioBufferRef 7)) None None
                            losAngeles "LYNCH").
Proof.
  destruct (image_failure_is_not_fatal toFixed2 toFixed2 atMedia 0
              losAngeles LYNCH monologue (AudioBufferRef 7)
              (GeminiService.generateSceneryImage
                 (GeminiService.ModelThrows "quota"))
              eq_refl
              (image_call_failed (GeminiService.ModelThrows "quota") eq_refl))
    as (Hstate & Hcontent & _).
  split; [ exact Hstate | exact Hcontent ].
Defined.

Lemma busy_submit_is_noop_witness :
  appState atNarrative = GENERATING_NARRATIVE
  /\ step atNarrative (SelectLocation (mkCoordinates 0 150)) = atNarrative.
Proof.
  split; [ reflexivity | ].
  apply (busy_submit_is_noop toFixed2 toFixed2 atNarrative
           (mkCoordinates 0 150)).
  right; left; reflexivity.
Defined.

Lemma failed_run_keeps_content_witness :
  content secondRunAtMedia
  = Some (mkLynchContent monologue (Some (AudioBufferRef 0)) None None
                         losAngeles "LYNCH")
  /\ appState (step secondRunAtMedia
                    (MediaSettled 1 (Rejected "No audio data returned")
                                  (Fulfilled None)))
     = ERROR
  /\ content (step secondRunAtMedia
                   (MediaSettled 1 (Rejected "No audio data returned")
                                 (Fulfilled None)))
     = content secondRunAtMedia.
Proof.
  split; [ reflexivity | ].
  destruct (failed_run_keeps_content toFixed2 toFixed2) as [ Hframe _ ].
  destruct (Hframe secondRunAtMedia
              (MediaSettled 1 (Rejected "No audio data returned")
                            (Fulfilled None))
              (fails_at_speech secondRunAtMedia 1 (mkCoordinates 70 120) LYNCH
                 monologue "No audio data returned" (Fulfilled None) eq_refl))
    as (Hstate & _ & Hcontent & _).
  split; [ exact Hstate | exact Hcontent ].
Defined.

End OrchestratorSamples.

(** ** Audio visualiser *)

Section Visualiser.
Import LynchPlayer.

(** With no live source at a display refresh every queued loop returns
    without painting and without queueing itself again. *)
Lemma draw_all_without_source (loops : list SourceNode) (m : Model) :
  sourceNodeRef m = None ->
  fold_left (fun m loop => draw loop m) loops m = m.
Proof.
  intro Hnone. induction loops as [ | loop loops IH ]; [ reflexivity | ].
  cbn [fold_left]. unfold draw at 2. rewrite Hnone. exact IH.
Qed.

Lemma frame_without_source_stops_loops (m : Model) :
  sourceNodeRef m = None ->
  scheduled (animationFrame m) = [] /\ frames (animationFrame m) = frames m.
Proof.
  intro Hnone. unfold animationFrame.
  rewrite draw_all_without_source by exact Hnone. split; reflexivity.
Qed.

(** With a live source, whichever it is, every queued loop paints and
    queues itself again: [draw] tests that a source is there, not that it
    is its own. *)
Lemma draw_all_with_source (loops : list SourceNode) (m : Model)
    (s : SourceNode) :
  sourceNodeRef m = Some s ->
  fold_left (fun m loop => draw loop m) loops m
  = mkModel (isPlaying m) (Some s) (canvasRef m) (scheduled m ++ loops)
            (rev (map (fun loop => mkFrame loop (Some s)) loops) ++ frames m)
            (nextSource m).
Proof.
  revert m. induction loops as [ | loop loops IH ]; intros m Hsome.
  - cbn. rewrite app_nil_r, <- Hsome. destruct m; reflexivity.
  - cbn [fold_left]. rewrite IH by (unfold draw; rewrite Hsome; reflexivity).
    unfold draw. rewrite Hsome. cbn [isPlaying canvasRef scheduled frames
                                     nextSource map rev].
    rewrite <- !app_assoc. reflexivity.
Qed.

Lemma frame_with_source_keeps_loops (m : Model) (s : SourceNode) :
  sourceNodeRef m = Some s ->
  scheduled (animationFrame m) = scheduled m
  /\ frames (animationFrame m)
     = (rev (map (fun loop => mkFrame loop (Some s)) (scheduled m))
          ++ frames m)%list.
Proof.
  intro Hsome. unfold animationFrame.
  rewrite (draw_all_with_source _ _ s) by exact Hsome. split; reflexivity.
Qed.

(** C9, what the code does.  A bundle is played to its end and replayed
    with the button: the live source is then the second one, yet at the
    next display refresh the loop started for the first source paints a
    frame and is queued again, next to the loop of the second source.  The
    same happens when a new bundle replaces the first one after its audio
    has ended. *)
Theorem replaced_source_loop_still_draws :
  let buffer := Some (AudioBufferRef 0) in
  let replayed := steps initial
                    [Mount buffer; AnimationFrame; Ended;
                     ReplayButton buffer] in
  let replaced := steps initial
                    [Mount buffer; AnimationFrame; Ended;
                     ContentChanged (Some (AudioBufferRef 1))] in
  (sourceNodeRef replayed = Some (SourceNodeRef 1)
   /\ head (frames (step replayed AnimationFrame))
      = Some (mkFrame (SourceNodeRef 1) (Some (SourceNodeRef 1)))
   /\ nth_error (frames (step replayed AnimationFrame)) 1
      = Some (mkFrame (SourceNodeRef 0) (Some (SourceNodeRef 1)))
   /\ length (frames (step replayed AnimationFrame))
      = 2 + length (frames replayed)
   /\ scheduled (step replayed AnimationFrame)
      = [SourceNodeRef 0; SourceNodeRef 1])
  /\ (sourceNodeRef replaced = Some (SourceNodeRef 1)
      /\ existsb (staleFrame (SourceNodeRef 0))
                 (firstn 2 (frames (step replaced AnimationFrame))) = true
      /\ scheduled (step replaced AnimationFrame)
         = [SourceNodeRef 0; SourceNodeRef 1]).
Proof.
  cbv zeta. repeat split.
Qed.

End Visualiser.

(* ===================================================================== *)
(** * Further properties of the code                                      *)
(* ===================================================================== *)

(** ** Map geometry *)

Section MapGeometry.
Import WorldMap.
Local Open Scope Q_scope.

Lemma fraction_in_unit (a lo size : Q) :
  0 < size -> lo <= a <= lo + size -> 0 <= (a - lo) / size <= 1.
Proof.
  intros Hsize [ Hlo Hhi ]. split.
  - apply Qle_shift_div_l; [ exact Hsize | lra ].
  - apply Qle_shift_div_r; [ exact Hsize | lra ].
Qed.

Lemma click_inside_globe (rect : DOMRect) (e : MouseEvent) :
  0 < width rect -> 0 < height rect ->
  left rect <= clientX e <= left rect + width rect ->
  top rect <= clientY e <= top rect + height rect ->
  exists c : Coordinates,
    handleClick false (Some rect) e = Some c
    /\ -90 <= lat c <= 90 /\ -180 <= lng c <= 180.
Proof.
  intros Hw Hh Hx Hy. eexists. split; [ reflexivity | ].
  cbn [lat lng].
  pose proof (fraction_in_unit _ _ _ Hw Hx) as Hnx.
  pose proof (fraction_in_unit _ _ _ Hh Hy) as Hny.
  set (nx := (clientX e - left rect) / width rect) in *.
  set (ny := (clientY e - top rect) / height rect) in *.
  lra.
Qed.

(** X1. A click anywhere inside the overlay (edges included) selects a
    coordinate on the globe: latitude in [-90, 90], longitude in
    [-180, 180]. *)
Theorem click_inside_selects_on_globe (rect : DOMRect) (e : MouseEvent) :
  0 < width rect -> 0 < height rect ->
  left rect <= clientX e <= left rect + width rect ->
  top rect <= clientY e <= top rect + height rect ->
  exists c : Coordinates,
    handleClick false (Some rect) e = Some c
    /\ -90 <= lat c <= 90 /\ -180 <= lng c <= 180.
Proof. exact (click_inside_globe rect e). Qed.

Lemma click_inside_selects_on_globe_witness :
  exists c : Coordinates,
    handleClick false (Some (mkDOMRect 8 16 600 300)) (mkMouseEvent 608 16)
    = Some c
    /\ -90 <= lat c <= 90 /\ -180 <= lng c <= 180.
Proof.
  apply (click_inside_selects_on_globe (mkDOMRect 8 16 600 300)
                                       (mkMouseEvent 608 16));
    cbn [width height left top clientX clientY]; lra.
Defined.

(** X2. The marker of the selected location is drawn where the click was:
    placing the percentages of [getPos] for the clicked coordinate on the
    overlay gives back the pointer position. *)
Theorem marker_is_drawn_at_click (rect : DOMRect) (e : MouseEvent)
    (c : Coordinates) :
  ~ width rect == 0 -> ~ height rect == 0 ->
  handleClick false (Some rect) e = Some c ->
  clientX (percentToClient rect (getPos (lat c) (lng c))) == clientX e
  /\ clientY (percentToClient rect (getPos (lat c) (lng c))) == clientY e.
Proof.
  intros Hw Hh Hclick. injection Hclick as <-.
  cbn [lat lng getPos percentToClient clientX clientY leftPct topPct].
  split; field; assumption.
Qed.

Lemma marker_is_drawn_at_click_witness :
  clientX (percentToClient (mkDOMRect 8 16 600 300)
             (getPos (90 - (84 / 300) * 180) ((142 / 600) * 360 - 180)))
  == 150
  /\ clientY (percentToClient (mkDOMRect 8 16 600 300)
                (getPos (90 - (84 / 300) * 180) ((142 / 600) * 360 - 180)))
     == 100.
Proof.
  apply (marker_is_drawn_at_click (mkDOMRect 8 16 600 300)
           (mkMouseEvent 150 100)
           (mkCoordinates (90 - (84 / 300) * 180) ((142 / 600) * 360 - 180)));
    [ cbn; discriminate | cbn; discriminate | ].
  unfold handleClick. cbn [clientX clientY left top width height].
  reflexivity.
Defined.



End MapGeometry.

(** ** Sun position and city clocks *)

Section Sun.
Import WorldMap.
Local Open Scope Q_scope.

(** X4. The two tests of the longitude computation undo exactly one turn:
    the result is in [-180, 180] if and only if [utcHours] is in
    [-24, 48], that is, the raw value is within one turn of that range. *)
Theorem sun_longitude_wraps_one_turn (u : Q) :
  -24 <= u <= 48 <-> -180 <= sunLng u <= 180.
Proof.
  destruct (sunLng_cases u) as (Hin & Hlow & Hhigh).
  unfold sunLngRaw in *.
  destruct (Qlt_le_dec ((12 - u) * 15) (-180)) as [ Hlo | Hlo ].
  - rewrite (Hlow Hlo). split; intro; lra.
  - destruct (Qlt_le_dec 180 ((12 - u) * 15)) as [ Hhi | Hhi ].
    + rewrite (Hhigh Hhi). split; intro; lra.
    + rewrite (Hin (conj Hlo Hhi)). split; intro; lra.
Qed.

Lemma sun_longitude_wraps_one_turn_witness : -180 <= sunLng 30 <= 180.
Proof.
  apply (proj1 (sun_longitude_wraps_one_turn 30)). lra.
Defined.

Lemma sunLng_clock (h m : Z) :
  (0 <= h <= 23)%Z -> (0 <= m <= 59)%Z ->
  sunLng (utcHours h m) == 180 - 15 * inject_Z h - inject_Z m / 4
  /\ -180 < sunLng (utcHours h m) <= 180.
Proof.
  intros Hh Hm.
  assert (H0h : 0 <= inject_Z h <= 23).
  { split; [ change 0 with (inject_Z 0) | change 23 with (inject_Z 23) ];
      rewrite <- Zle_Qle; lia. }
  assert (H0m : 0 <= inject_Z m <= 59).
  { split; [ change 0 with (inject_Z 0) | change 59 with (inject_Z 59) ];
      rewrite <- Zle_Qle; lia. }
  assert (Hu : utcHours h m == inject_Z h + inject_Z m * (1 # 60))
    by (unfold utcHours; field).
  destruct (sunLng_cases (utcHours h m)) as (Hin & _ & _).
  assert (Hraw : sunLngRaw (utcHours h m)
                 == 180 - 15 * inject_Z h - inject_Z m * (1 # 4)).
  { unfold sunLngRaw. rewrite Hu. ring. }
  assert (Hquarter : inject_Z m / 4 == inject_Z m * (1 # 4)) by field.
  rewrite Hin by (rewrite Hraw; lra).
  rewrite Hraw, Hquarter. split; [ reflexivity | lra ].
Qed.



(** X6. The city clock and the sun agree: at the longitude where the sun
    is put at the time [h:m] UTC, the date built by [getCityTime] is, once
    the browser's zone offset is taken off again, 12:00 of the same UTC
    day. *)
Theorem city_clock_reads_noon_under_the_sun (dayStart tz h m : Z) :
  (0 <= h <= 23)%Z -> (0 <= m <= 59)%Z ->
  cityTime (dayStart + 3600000 * h + 60000 * m) tz (sunLng (utcHours h m))
    - inject_Z tz * 60000
  == inject_Z dayStart + 12 * 3600000.
Proof.
  intros Hh Hm.
  destruct (sunLng_clock h m Hh Hm) as [ Hlng _ ].
  unfold cityTime. cbv zeta. rewrite Hlng.
  rewrite !inject_Z_plus, !inject_Z_mult. field.
Qed.

Lemma city_clock_reads_noon_under_the_sun_witness :
  cityTime (1700000000000 + 3600000 * 7 + 60000 * 45) (-120)
           (sunLng (utcHours 7 45))
    - inject_Z (-120) * 60000
  == inject_Z 1700000000000 + 12 * 3600000.
Proof.
  apply (city_clock_reads_noon_under_the_sun 1700000000000 (-120) 7 45); lia.
Defined.

Local Open Scope R_scope.

(** X7. The declination stays between -23.44 and 23.44 degrees on every
    day; it is zero on day 81, takes opposite values at equal distances
    before and after day 81, and repeats after 365 days. *)
Theorem sun_latitude_is_a_bounded_wave :
  (forall d : Z, - (2344 / 100) <= sunLat d <= 2344 / 100)
  /\ sunLat 81 = 0
  /\ (forall k : Z, sunLat (81 + k) = - sunLat (81 - k))
  /\ (forall d : Z, sunLat (d + 365) = sunLat d).
Proof.
  split; [ | split; [ | split ] ].
  - intro d. unfold sunLat.
    pose proof (SIN_bound (2 * PI / 365 * (IZR d - 81))) as [ Hlo Hhi ].
    split; Lra.lra.
  - unfold sunLat. replace (IZR 81 - 81) with 0 by Lra.lra.
    rewrite Rmult_0_r, sin_0. Lra.lra.
  - intro k. unfold sunLat. rewrite plus_IZR, minus_IZR.
    replace (2 * PI / 365 * (81 + IZR k - 81))
      with (- (2 * PI / 365 * (81 - IZR k - 81))) by Lra.lra.
    rewrite sin_neg. Lra.lra.
  - intro d. unfold sunLat. rewrite plus_IZR.
    replace (2 * PI / 365 * (IZR d + 365 - 81))
      with (2 * PI / 365 * (IZR d - 81) + 2 * PI) by (field; Lra.lra).
    rewrite sin_plus, sin_2PI, cos_2PI. Lra.lra.
Qed.

End Sun.

(** ** Terrain labels *)

Section TerrainShape.
Import WeatherService.
Local Open Scope Q_scope.

Lemma Qltb_compat (a a' b b' : Q) :
  a == a' -> b == b' -> Qltb a b = Qltb a' b'.
Proof.
  intros Ha Hb. destruct (Qltb a' b') eqn:E.
  - apply Qltb_true in E. apply Qltb_true. rewrite Ha, Hb. exact E.
  - apply Qltb_false in E. apply Qltb_false. rewrite Ha, Hb. exact E.
Qed.

Lemma terrain_compat (la la' ln ln' : Q) :
  Qabs la == Qabs la' -> Qabs ln == Qabs ln' ->
  getTerrainDescription la ln = getTerrainDescription la' ln'.
Proof.
  intros Hla Hln. unfold getTerrainDescription.
  rewrite (Qltb_compat 60 60 (Qabs la) (Qabs la') (Qeq_refl _) Hla).
  rewrite (Qltb_compat (Qabs la) (Qabs la') 20 20 Hla (Qeq_refl _)).
  rewrite (Qltb_compat (Qabs ln) (Qabs ln') 30 30 Hln (Qeq_refl _)).
  rewrite (Qltb_compat 20 20 (Qabs la) (Qabs la') (Qeq_refl _) Hla).
  rewrite (Qltb_compat (Qabs la) (Qabs la') 40 40 Hla (Qeq_refl _)).
  rewrite (Qltb_compat 100 100 (Qabs ln) (Qabs ln') (Qeq_refl _) Hln).
  reflexivity.
Qed.

(** X8. The terrain label is the same in the four quadrants: changing the
    sign of the latitude, of the longitude or of both does not change
    it. *)
Theorem terrain_is_mirror_symmetric (la ln : Q) :
  getTerrainDescription (- la) ln = getTerrainDescription la ln
  /\ getTerrainDescription la (- ln) = getTerrainDescription la ln
  /\ getTerrainDescription (- la) (- ln) = getTerrainDescription la ln.
Proof.
  repeat split; apply terrain_compat;
    try apply Qabs_opp; reflexivity.
Qed.

(** X9. The strict comparisons leave bands that no special rule covers:
    at latitude 20 exactly (north or south), and from 40 to 60 degrees
    included, the label is the wasteland one at every longitude; and
    above 60 degrees it is the tundra one at every longitude. *)
Theorem terrain_bands_without_rule (la ln : Q) :
  (Qabs la == 20 \/ 40 <= Qabs la <= 60 ->
   getTerrainDescription la ln = "an industrial wasteland")
  /\ (60 < Qabs la -> getTerrainDescription la ln = "frozen tundra").
Proof.
  split.
  - intro Hband. unfold getTerrainDescription.
    assert (H60 : Qltb 60 (Qabs la) = false)
      by (apply Qltb_false; destruct Hband as [ H | H ]; [ rewrite H | ]; lra).
    rewrite H60.
    destruct Hband as [ H20 | [ H40 _ ] ].
    + assert (Ha : Qltb (Qabs la) 20 = false)
        by (apply Qltb_false; rewrite H20; lra).
      assert (Hb : Qltb 20 (Qabs la) = false)
        by (apply Qltb_false; rewrite H20; lra).
      rewrite Ha, Hb. reflexivity.
    + assert (Ha : Qltb (Qabs la) 20 = false) by (apply Qltb_false; lra).
      assert (Hb : Qltb (Qabs la) 40 = false) by (apply Qltb_false; lra).
      rewrite Ha, Hb. cbn [andb]. rewrite andb_false_r. reflexivity.
  - intro H60. unfold getTerrainDescription.
    apply Qltb_true in H60. rewrite H60. reflexivity.
Qed.

Lemma terrain_bands_without_rule_witness :
  getTerrainDescription (-20) 10 = "an industrial wasteland".
Proof.
  destruct (terrain_bands_without_rule (-20) 10) as [ H _ ].
  apply H. left. reflexivity.
Defined.

End TerrainShape.

(** ** Weather gateway *)

Section WeatherGateway.
Import WeatherService.

(** What a fulfilled [data.map] looks like, from index [i] on. *)
Lemma mapCities_Some (entries : list (option Q)) :
  forall (i : nat) (r : list CityWeather),
    mapCities i entries = Some r ->
    length r = length entries
    /\ forall (k : nat) (cw : CityWeather),
        r !! k = Some cw ->
        exists c,
          Constants.MAJOR_CITIES !! (i + k)%nat = Some c
          /\ entries !! k = Some (Some (cityTemperature cw))
          /\ name cw = Constants.city c
          /\ cityLat cw = Constants.lat c
          /\ cityLng cw = Constants.lng c.
Proof.
  induction entries as [ | d rest IH ]; intros i r Hmap.
  - injection Hmap as <-. split; [ reflexivity | ]. intros k cw Hk.
    rewrite lookup_nil in Hk. discriminate Hk.
  - cbn [mapCities] in Hmap.
    destruct (Constants.MAJOR_CITIES !! i) as [ c | ] eqn:Hcity;
      [ | discriminate Hmap ].
    destruct d as [ t | ]; [ | discriminate Hmap ].
    destruct (mapCities (S i) rest) as [ cities | ] eqn:Hrest;
      [ | discriminate Hmap ].
    injection Hmap as <-. destruct (IH _ _ Hrest) as [ Hlen Hall ].
    split; [ cbn [length]; rewrite Hlen; reflexivity | ].
    intros [ | k ] cw Hk.
    + injection Hk as <-. exists c. rewrite Nat.add_0_r.
      repeat split; assumption.
    + destruct (Hall k cw Hk) as (c' & Hc' & Hrest').
      exists c'. replace (i + S k)%nat with (S i + k)%nat by lia.
      split; [ exact Hc' | exact Hrest' ].
Qed.


(** What a non-empty answer of [fetchGlobalTemperatures] looks like. *)
Lemma batch_aligned (exchange : Exchange BatchJson) :
  fetchGlobalTemperatures exchange = []
  \/ exists entries,
      exchange = Json (ArrayOf entries)
      /\ mapCities 0 entries = Some (fetchGlobalTemperatures exchange).
Proof.
  destruct exchange as [ message | | message | [ entries | ] ];
    try (left; reflexivity).
  cbn [fetchGlobalTemperatures].
  destruct (mapCities 0 entries) as [ r | ] eqn:Hmap;
    [ right; exists entries; split; [ reflexivity | exact Hmap ]
    | left; reflexivity ].
Qed.



Lemma major_city_names_differ : NoDup (map Constants.city Constants.MAJOR_CITIES).
Proof.
  apply NoDup_ListNoDup. cbn [map Constants.city Constants.MAJOR_CITIES].
  repeat (constructor; [ cbn; intuition discriminate | ]). constructor.
Qed.

(** X11. The marker names are pairwise different in every answer of
    [fetchGlobalTemperatures], so the keys of the marker list
    ([key={city.name}]) never collide. *)
Theorem marker_keys_are_unique (exchange : Exchange BatchJson) :
  NoDup (map name (fetchGlobalTemperatures exchange)).
Proof.
  apply NoDup_alt. intros j k x Hj Hk.
  rewrite list_lookup_fmap in Hj, Hk.
  destruct (fetchGlobalTemperatures exchange !! j) as [ cwj | ] eqn:Ej;
    [ | discriminate Hj ].
  destruct (fetchGlobalTemperatures exchange !! k) as [ cwk | ] eqn:Ek;
    [ | discriminate Hk ].
  cbn in Hj, Hk. injection Hj as Hj. injection Hk as Hk.
  destruct (batch_aligned exchange) as [ Hnil | (entries & _ & Hmap) ].
  - rewrite Hnil, lookup_nil in Ej. discriminate Ej.
  - destruct (mapCities_Some _ _ _ Hmap) as [ _ Hall ].
    destruct (Hall _ _ Ej) as (cj & Hcj & _ & Hnj & _).
    destruct (Hall _ _ Ek) as (ck & Hck & _ & Hnk & _).
    cbn [Nat.add] in Hcj, Hck.
    pose proof major_city_names_differ as Hnodup.
    rewrite NoDup_alt in Hnodup.
    apply (Hnodup j k x); rewrite list_lookup_fmap.
    + rewrite Hcj. cbn. congruence.
    + rewrite Hck. cbn. congruence.
Qed.

End WeatherGateway.

Section CityMarkers.
Import WeatherService.
Local Open Scope Q_scope.

Lemma major_cities_on_globe :
  Forall (fun c => (-90 <= Constants.lat c <= 90)
                   /\ (-180 <= Constants.lng c <= 180))
         Constants.MAJOR_CITIES.
Proof.
  unfold Constants.MAJOR_CITIES.
  repeat (constructor; [ cbn [Constants.lat Constants.lng]; lra | ]).
  constructor.
Qed.

(** X12. Every city marker that is drawn, whatever the batch exchange
    did, sits inside the map (both percentages in [0, 100]) and a click on
    it, when the map is not disabled, selects the city's coordinate, which
    is on the globe. *)
Theorem city_markers_are_on_the_map (exchange : Exchange BatchJson)
    (cw : CityWeather) :
  In cw (fetchGlobalTemperatures exchange) ->
  (0 <= WorldMap.leftPct (WorldMap.getPos (cityLat cw) (cityLng cw)) <= 100
   /\ 0 <= WorldMap.topPct (WorldMap.getPos (cityLat cw) (cityLng cw)) <= 100)
  /\ exists c : Coordinates,
      WorldMap.handleCityClick false cw = Some c
      /\ lat c = cityLat cw /\ lng c = cityLng cw
      /\ -90 <= lat c <= 90 /\ -180 <= lng c <= 180.
Proof.
  intro Hin. apply list_elem_of_In, list_elem_of_lookup in Hin as [ k Hk ].
  assert (Hglobe : (-90 <= cityLat cw <= 90) /\ (-180 <= cityLng cw <= 180)).
  { destruct (batch_aligned exchange) as [ Hnil | (entries & _ & Hmap) ].
    - rewrite Hnil, lookup_nil in Hk. discriminate Hk.
    - destruct (mapCities_Some _ _ _ Hmap) as [ _ Hall ].
      destruct (Hall _ _ Hk) as (c & Hc & _ & _ & -> & ->).
      pose proof major_cities_on_globe as Hcities.
      rewrite Forall_lookup in Hcities. exact (Hcities _ _ Hc). }
  destruct Hglobe as [ Hla Hln ]. split.
  - cbn [WorldMap.getPos WorldMap.leftPct WorldMap.topPct].
    assert (Hl : (cityLng cw + 180) / 360 * 100
                 == (cityLng cw + 180) * (5 # 18)) by field.
    assert (Ht : (90 - cityLat cw) / 180 * 100
                 == (90 - cityLat cw) * (5 # 9)) by field.
    rewrite Hl, Ht. lra.
  - eexists. split; [ reflexivity | ]. cbn [lat lng].
    repeat split; lra.
Qed.

Lemma city_markers_are_on_the_map_witness :
  0 <= WorldMap.leftPct (WorldMap.getPos (4071 # 100) (-7400 # 100)) <= 100
  /\ 0 <= WorldMap.topPct (WorldMap.getPos (4071 # 100) (-7400 # 100)) <= 100.
Proof.
  apply (city_markers_are_on_the_map
           (Json (ArrayOf [Some 18%Q; Some 4%Q]))
           (mkCityWeather "NY" (4071 # 100) (-7400 # 100) 4)).
  right. left. reflexivity.
Defined.

End CityMarkers.

(** ** Narrative, speech and image gateways *)

Section Gateways.
Import GeminiService.

Lemma orElse_not_empty (a : option string) (b : string) :
  b <> "" -> orElse a b <> "".
Proof.
  intro Hb. unfold orElse, falsy. destruct a as [ s | ]; [ | exact Hb ].
  destruct (String.eqb s "") eqn:E; [ exact Hb | ].
  cbn. apply String.eqb_neq. exact E.
Qed.

(** X13. The image gateway rejects only when building the prompt throws;
    an error of the model call becomes [null].  From an answer it takes
    the first part that carries image data, as a [data:] address, and
    ignores the parts before it (which carry none) and everything after
    it; it answers [null] exactly when no part carries image data. *)
Theorem image_gateway_takes_first_image :
  (forall call : ImageCall,
      (exists reason, generateSceneryImage call = Rejected reason)
      <-> (exists message, call = PromptThrows message))
  /\ (forall (texts rest : list Part) (d : InlineData),
        Forall (fun p => inlineData p = None) texts ->
        generateSceneryImage
          (ModelResponds (Some (texts ++ mkPart (Some d) :: rest)%list))
        = Fulfilled (Some ("data:" ++ mimeType d ++ ";base64," ++ data d)))
  /\ (forall parts : list Part,
        generateSceneryImage (ModelResponds (Some parts)) = Fulfilled None
        <-> Forall (fun p => inlineData p = None) parts)
  /\ generateSceneryImage (ModelResponds None) = Fulfilled None.
Proof.
  split; [ | split; [ | split ] ].
  - intros [ message | message | parts ]; split; intros [ x Hx ];
      try discriminate Hx; eexists; reflexivity.
  - intros texts rest d Htexts. unfold generateSceneryImage, default, from_option, Datatypes.id.
    f_equal. induction Htexts as [ | p texts Hp _ IH ].
    + reflexivity.
    + cbn [app firstInlineImage]. rewrite Hp. exact IH.
  - intro parts. unfold generateSceneryImage, default, from_option, Datatypes.id. split.
    + intro Hnone. injection Hnone as Hnone.
      induction parts as [ | p parts IH ]; [ constructor | ].
      cbn [firstInlineImage] in Hnone.
      destruct (inlineData p) eqn:Hp; [ discriminate Hnone | ].
      constructor; [ exact Hp | exact (IH Hnone) ].
    + intro Hall. f_equal. induction Hall as [ | p parts Hp _ IH ];
        [ reflexivity | ].
      cbn [firstInlineImage]. rewrite Hp. exact IH.
  - reflexivity.
Qed.

Lemma image_gateway_takes_first_image_witness :
  generateSceneryImage
    (ModelResponds
       (Some ([mkPart None]
                ++ mkPart (Some (mkInlineData "image/png" "AAAA"))
                :: [mkPart (Some (mkInlineData "image/jpeg" "BBBB"))])%list))
  = Fulfilled (Some "data:image/png;base64,AAAA").
Proof.
  destruct image_gateway_takes_first_image as (_ & H & _).
  apply (H [mkPart None] [mkPart (Some (mkInlineData "image/jpeg" "BBBB"))]
           (mkInlineData "image/png" "AAAA")).
  constructor; [ reflexivity | constructor ].
Defined.

(** X14. The description of the weather handed to the model is never
    empty: a condition code of the table gets its label, every other code
    gets "Unknown". *)
Theorem weather_description_is_never_empty (weather : WeatherData) :
  weatherDesc weather <> ""
  /\ (Constants.WEATHER_CODES !! conditionCode weather = None ->
      weatherDesc weather = "Unknown")
  /\ (forall label,
        Constants.WEATHER_CODES !! conditionCode weather = Some label ->
        weatherDesc weather = label)
  /\ (~ In (conditionCode weather)
           [0; 1; 2; 3; 45; 48; 51; 53; 55; 61; 63; 65; 71; 73; 75; 95]%Z ->
      weatherDesc weather = "Unknown").
Proof.
  assert (Hlabels : forall code label,
             Constants.WEATHER_CODES !! code = Some label -> label <> "").
  { intros code label Hlookup. unfold Constants.WEATHER_CODES in Hlookup.
    apply elem_of_list_to_map_2 in Hlookup.
    repeat (apply elem_of_cons in Hlookup as [ Hlookup | Hlookup ];
            [ injection Hlookup as -> ->; discriminate | ]).
    apply elem_of_nil in Hlookup. destruct Hlookup. }
  split; [ | split; [ | split ] ].
  - apply orElse_not_empty. discriminate.
  - intro Hnone. unfold weatherDesc. rewrite Hnone. reflexivity.
  - intros label Hsome. unfold weatherDesc. rewrite Hsome.
    unfold orElse, falsy.
    destruct (String.eqb label "") eqn:E; [ | reflexivity ].
    apply String.eqb_eq in E. contradiction (Hlabels _ _ Hsome).
  - intro Hout. unfold weatherDesc.
    destruct (Constants.WEATHER_CODES !! conditionCode weather)
      as [ label | ] eqn:Hlookup; [ | reflexivity ].
    exfalso. apply Hout. unfold Constants.WEATHER_CODES in Hlookup.
    apply elem_of_list_to_map_2 in Hlookup.
    repeat (apply elem_of_cons in Hlookup as [ Hlookup | Hlookup ];
            [ injection Hlookup as -> ->; cbn; tauto | ]).
    apply elem_of_nil in Hlookup. destruct Hlookup.
Qed.

Lemma weather_description_is_never_empty_witness :
  weatherDesc (mkWeatherData 12 30 77) = "Unknown".
Proof.
  destruct (weather_description_is_never_empty (mkWeatherData 12 30 77))
    as (_ & H & _).
  apply H. reflexivity.
Defined.

End Gateways.

(** ** The pipeline, end to end *)

Section Runs.
Import App.

Variable toFixed2 : Q -> string.
Variable numberToString : Q -> string.

Local Abbreviation step := (App.step toFixed2 numberToString).
Local Abbreviation steps := (App.steps toFixed2 numberToString).

(** Unfold the handlers and the projections, not the store. *)
Ltac run_fields :=
  lazy beta iota zeta delta
    [App.step App.steps fold_left handleSelectLocation processLocation
     runAutoLoop resumeWeather resumeNarrative resumeMedia catchError addLog
     setLogs setAppState setAudioContextRef setContent setCurrentLocation
     setAutoMode setAutoModeTimerRef setCurrentTheme autoModeEffect
     suspend finish spawn appState currentLocation content autoMode
     currentTheme logs audioContextRef autoModeTimerRef inFlight nextRun
     runCoords runTheme runStage clickMap clickCity].


(** X15. A submission in one of the states [IDLE], [PLAYING] and [ERROR]
    is accepted: the coordinate becomes the selection, the state becomes
    [FETCHING_WEATHER], the connection line is logged and a run for that
    coordinate with the theme of the moment waits for the weather; the
    bundle on display stays. *)
Theorem idle_submit_starts_run (m : Model) (coords : Coordinates) :
  appState m = IDLE \/ appState m = PLAYING \/ appState m = ERROR ->
  let m' := step m (SelectLocation coords) in
  currentLocation m' = Some coords
  /\ appState m' = FETCHING_WEATHER
  /\ inFlight m' !! nextRun m
     = Some (mkRun coords (currentTheme m) AwaitWeather)
  /\ logs m'
     = pushLog ("Connecting to coordinates: " ++ toFixed2 (lat coords)
                  ++ ", " ++ toFixed2 (lng coords) ++ "...") (logs m)
  /\ content m' = content m.
Proof.
  intros Hidle m'. subst m'.
  assert (Hbusy : busy (appState m) = false)
    by (destruct Hidle as [ -> | [ -> | -> ] ]; reflexivity).
  destruct m as [ st loc cnt auto theme lg ctx timer runs next ].
  cbn [appState] in Hbusy.
  run_fields. rewrite Hbusy. run_fields.
  repeat split. apply lookup_insert_eq.
Qed.


(** X17. Each gateway failure is reported under its own fixed line and
    the text of the underlying error is not logged.  A weather exchange
    that throws, has a bad status or lacks [current] gives the telemetry
    line; a narrative call that throws gives the synthesis line; a speech
    call that throws, carries no audio payload or cannot be decoded gives
    the audio line.  In each case the state is [ERROR] and the bundle on
    display stays. *)
Theorem gateway_failures_have_fixed_lines :
  (forall (m : Model) (i : nat) (c : Coordinates) (t : ThemeConfig)
          (exchange : WeatherService.Exchange WeatherService.ForecastJson),
      inFlight m !! i = Some (mkRun c t AwaitWeather) ->
      (forall a b code,
          exchange <> WeatherService.Json (WeatherService.Current a b code)) ->
      let m' := step m (WeatherSettled i
                          (WeatherService.fetchWeatherData exchange)) in
      appState m' = ERROR
      /\ logs m'
         = pushLog
             "Error: Unable to establish telemetry link (Weather Service Down)."
             (logs m)
      /\ content m' = content m)
  /\ (forall (m : Model) (i : nat) (c : Coordinates) (t : ThemeConfig)
             (reason : string) (newAudioContext : option string),
        inFlight m !! i = Some (mkRun c t AwaitNarrative) ->
        let m' := step m (NarrativeSettled i
                            (GeminiService.generateNarrative (Rejected reason))
                            newAudioContext) in
        appState m' = ERROR
        /\ logs m'
           = pushLog "Error: Neural synthesis failure (LLM Unresponsive)."
                     (logs m)
        /\ content m' = content m)
  /\ (forall (m : Model) (i : nat) (c : Coordinates) (t : ThemeConfig)
             (narrative : string) (call : GeminiService.SpeechCall)
             (imageResult : Settled (option string)),
        inFlight m !! i = Some (mkRun c t (AwaitMedia narrative)) ->
        (exists message, call = GeminiService.SpeechThrows message)
        \/ (exists decoded, call = GeminiService.SpeechResponds None decoded)
        \/ (exists decoded,
               call = GeminiService.SpeechResponds (Some "") decoded)
        \/ (exists payload reason,
               call = GeminiService.SpeechResponds payload (Rejected reason)) ->
        let m' := step m (MediaSettled i (GeminiService.generateSpeech call)
                                       imageResult) in
        appState m' = ERROR
        /\ logs m'
           = pushLog "Error: Audio frequency corruption (TTS Failed)."
                     (logs m)
        /\ content m' = content m).
Proof.
  split; [ | split ].
  - intros m i c t exchange Hrun Hbad m'. subst m'.
    cbn [App.step]. rewrite Hrun.
    destruct exchange as [ message | | message | [ a b code | typeError ] ];
      try (repeat split; fail).
    contradiction (Hbad a b code). reflexivity.
  - intros m i c t reason ctx Hrun m'. subst m'.
    cbn [App.step]. rewrite Hrun. repeat split.
  - intros m i c t narrative call image Hrun Hcall m'. subst m'.
    cbn [App.step]. rewrite Hrun.
    assert (Hrejected : exists reason,
               GeminiService.generateSpeech call = Rejected reason).
    { destruct Hcall as [ [ message -> ] | [ [ decoded -> ]
                        | [ [ decoded -> ] | ( payload & reason & -> ) ] ] ];
        try (eexists; reflexivity).
      cbn [GeminiService.generateSpeech].
      destruct (GeminiService.falsy payload); eexists; reflexivity. }
    destruct Hrejected as [ reason -> ]. repeat split.
Qed.

(** X18. The narrative a run carries to the media step, and then into the
    bundle, is never the empty text: when the model answers without text
    it is the placeholder "Static...", otherwise it is the answer. *)
Theorem narrative_is_never_empty
    (m : Model) (i : nat) (c : Coordinates) (t : ThemeConfig)
    (text : option string) :
  inFlight m !! i = Some (mkRun c t AwaitNarrative) ->
  let m' := step m (NarrativeSettled i
                      (GeminiService.generateNarrative (Fulfilled text))
                      None) in
  exists narrative : string,
    inFlight m' !! i = Some (mkRun c t (AwaitMedia narrative))
    /\ appState m' = GENERATING_MEDIA
    /\ narrative <> ""
    /\ (text = None \/ text = Some "" -> narrative = "Static...")
    /\ (forall s, text = Some s -> s <> "" -> narrative = s).
Proof.
  intros Hrun m'. subst m'.
  destruct m as [ st loc cnt auto theme lg ctx timer runs next ].
  cbn [inFlight] in Hrun.
  exists (GeminiService.orElse text "Static...").
  run_fields. rewrite Hrun. cbn [GeminiService.generateNarrative]. run_fields.
  assert (Hctx : (if ctx then None else @None string) = None)
    by (destruct ctx; reflexivity).
  rewrite Hctx. run_fields.
  split; [ apply lookup_insert_eq | ]. split; [ reflexivity | ].
  split; [ apply orElse_not_empty; discriminate | ]. split.
  - intros [ -> | -> ]; reflexivity.
  - intros s -> Hs. unfold GeminiService.orElse, GeminiService.falsy.
    apply String.eqb_neq in Hs. rewrite Hs. reflexivity.
Qed.

Lemma steps_keep_SingleRun (es : list Event) (m : Model) :
  forallb (fun e => negb (autoDrift e)) es = true ->
  SingleRun m -> SingleRun (steps m es).
Proof.
  revert m. induction es as [ | e es IH ]; intros m Hes Hm; [ exact Hm | ].
  cbn [forallb] in Hes. apply andb_prop in Hes as [ He Hes ].
  unfold App.steps. cbn [fold_left]. apply (IH _ Hes).
  apply step_SingleRun; [ | exact Hm ].
  destruct (autoDrift e); [ discriminate He | reflexivity ].
Qed.

(** X19. As long as auto-drift is not switched on, submissions from the
    map never overlap: from the initial state, after any sequence of
    clicks, theme changes, gateway settlements and end-of-audio events, at
    most one run is in flight, and one is in flight exactly when the state
    is one of the three working states. *)
Theorem map_submissions_never_overlap (es : list Event) :
  forallb (fun e => negb (autoDrift e)) es = true ->
  let m := steps initial es in
  size (inFlight m) <= 1
  /\ (busy (appState m) = true <-> size (inFlight m) = 1).
Proof.
  intros Hes m.
  assert (Hinv : SingleRun m).
  { apply steps_keep_SingleRun; [ exact Hes | ].
    split; [ reflexivity | left; split; reflexivity ]. }
  destruct Hinv as [ _ [ [ Hidle Hnone ] | ( j & r & Hone & Hstate ) ] ].
  - rewrite Hnone, map_size_empty, Hidle.
    split; [ lia | split; intro H; discriminate H ].
  - rewrite Hone, map_size_singleton, Hstate.
    split; [ lia | split; [ reflexivity | ] ].
    intros _. destruct (runStage r); reflexivity.
Qed.

Lemma step_logs (m : Model) (e : Event) :
  logs (step m e) = logs m
  \/ exists line rest, logs (step m e) = pushLog line rest.
Proof.
  destruct m as [ st loc cnt auto theme lg ctx timer runs next ].
  destruct e as [ coords | th | checked r1 r2 | r1 r2
                | i weather | i narrative newctx
                | i audio image | ]; run_fields.
  - destruct (busy st); [ left; reflexivity | ].
    right. eexists _, _. reflexivity.
  - left. reflexivity.
  - destruct (Bool.eqb checked auto); [ left; reflexivity | ].
    destruct checked; [ right; eexists _, _ | left ]; reflexivity.
  - destruct timer; [ right; eexists _, _ | left ]; reflexivity.
  - destruct (runs !! i) as [ [ c t [ | | n ] ] | ];
      try (left; reflexivity).
    destruct weather; right; eexists _, _; reflexivity.
  - destruct (runs !! i) as [ [ c t [ | | n ] ] | ];
      try (left; reflexivity).
    destruct narrative as [ narrative | reason ];
      [ | right; eexists _, _; reflexivity ].
    destruct (if ctx then None else newctx);
      right; eexists _, _; reflexivity.
  - destruct (runs !! i) as [ [ c t [ | | n ] ] | ];
      try (left; reflexivity).
    destruct audio; right; eexists _, _; reflexivity.
  - right. eexists _, _. reflexivity.
Qed.

(** X20. The log buffer never holds more than five lines, whatever
    happens to the component: clicks, theme changes, auto-drift, gateway
    settlements in any order, overlapping runs included. *)
Theorem log_buffer_is_bounded (es : list Event) :
  length (logs (steps initial es)) <= 5.
Proof.
  assert (Hstep : forall m e, length (logs m) <= 5 ->
                              length (logs (step m e)) <= 5).
  { intros m e Hm. destruct (step_logs m e) as [ -> | ( line & rest & -> ) ];
      [ exact Hm | ].
    unfold pushLog. rewrite length_firstn. lia. }
  assert (Hsteps : forall es m, length (logs m) <= 5 ->
                                length (logs (steps m es)) <= 5).
  { clear es. induction es as [ | e es IH ]; intros m Hm; [ exact Hm | ].
    unfold App.steps. cbn [fold_left]. apply IH, Hstep, Hm. }
  apply Hsteps. cbn. lia.
Qed.

(** X21. A tick of auto-drift, with [Math.random()] in [0, 1), starts a
    run for a latitude in [-80, 80) and a longitude in [-180, 180).  It
    does not touch the selection, so the marker of the selected location
    stays where it was, nor the bundle on display. *)
Theorem auto_drift_stays_off_the_poles
    (m : Model) (t : ThemeConfig) (r1 r2 : Q) :
  autoModeTimerRef m = Some t ->
  (0 <= r1 /\ r1 < 1)%Q -> (0 <= r2 /\ r2 < 1)%Q ->
  let m' := step m (AutoDriftTick r1 r2) in
  (exists c : Coordinates,
      inFlight m' !! nextRun m = Some (mkRun c t AwaitWeather)
      /\ (-80 <= lat c /\ lat c < 80)%Q
      /\ (-180 <= lng c /\ lng c < 180)%Q)
  /\ appState m' = FETCHING_WEATHER
  /\ currentLocation m' = currentLocation m
  /\ content m' = content m.
Proof.
  intros Htimer Hr1 Hr2 m'. subst m'.
  destruct m as [ st loc cnt auto theme lg ctx timer runs next ].
  cbn [autoModeTimerRef] in Htimer. subst timer. run_fields.
  split; [ | repeat split ].
  eexists. split; [ apply lookup_insert_eq | ].
  cbn [lat lng]. split; lra.
Qed.

(** X22. Auto-drift keeps the theme it was switched on with: after the
    switch, a theme button changes the theme of the moment, but the run a
    later tick starts carries the theme of the time of the switch. *)
Theorem auto_drift_keeps_its_theme
    (m : Model) (t' : ThemeConfig) (r1 r2 r3 r4 : Q) :
  autoMode m = false ->
  let m' := steps m [AutoDriftToggle true r1 r2; ThemeButton t';
                     AutoDriftTick r3 r4] in
  currentTheme m' = t'
  /\ inFlight m' !! S (nextRun m)
     = Some (mkRun (mkCoordinates (r3 * 160 - 80) (r4 * 360 - 180))
                   (currentTheme m) AwaitWeather).
Proof.
  intros Hauto m'. subst m'.
  destruct m as [ st loc cnt auto theme lg ctx timer runs next ].
  cbn [autoMode] in Hauto. subst auto. run_fields.
  cbn [Bool.eqb]. run_fields.
  split; [ reflexivity | apply lookup_insert_eq ].
Qed.

(** X23. Switching auto-drift off disarms the interval and nothing else:
    runs in flight are not cancelled, the state and the bundle stay, and a
    tick that still arrives does nothing. *)
Theorem auto_drift_off_only_disarms (m : Model) (r1 r2 r3 r4 : Q) :
  autoMode m = true ->
  let m' := step m (AutoDriftToggle false r1 r2) in
  autoMode m' = false
  /\ autoModeTimerRef m' = None
  /\ inFlight m' = inFlight m
  /\ appState m' = appState m
  /\ content m' = content m
  /\ logs m' = logs m
  /\ step m' (AutoDriftTick r3 r4) = m'.
Proof.
  intros Hauto m'. subst m'.
  destruct m as [ st loc cnt auto theme lg ctx timer runs next ].
  cbn [autoMode] in Hauto. subst auto. run_fields.
  cbn [Bool.eqb]. run_fields. repeat split.
Qed.

(** X24. The map and the orchestrator agree on when they are busy.  The
    [disabled] flag given to the map is set exactly in the states in which
    a submission is ignored; a click on the overlay or on a city marker in
    such a state changes nothing; in the other states a click inside the
    overlay submits a coordinate on the globe, which becomes the
    selection. *)
Theorem map_click_respects_busy
    (m : Model) (rect : WorldMap.DOMRect) (e : WorldMap.MouseEvent)
    (city : CityWeather) :
  mapDisabled m = busy (appState m)
  /\ (busy (appState m) = true ->
      clickMap toFixed2 rect e m = m /\ clickCity toFixed2 city m = m)
  /\ (busy (appState m) = false ->
      (0 < WorldMap.width rect)%Q -> (0 < WorldMap.height rect)%Q ->
      (WorldMap.left rect <= WorldMap.clientX e
       /\ WorldMap.clientX e <= WorldMap.left rect + WorldMap.width rect)%Q ->
      (WorldMap.top rect <= WorldMap.clientY e
       /\ WorldMap.clientY e <= WorldMap.top rect + WorldMap.height rect)%Q ->
      exists c : Coordinates,
        clickMap toFixed2 rect e m = step m (SelectLocation c)
        /\ currentLocation (clickMap toFixed2 rect e m) = Some c
        /\ appState (clickMap toFixed2 rect e m) = FETCHING_WEATHER
        /\ (-90 <= lat c /\ lat c <= 90)%Q
        /\ (-180 <= lng c /\ lng c <= 180)%Q).
Proof.
  assert (Hflag : mapDisabled m = busy (appState m))
    by (unfold mapDisabled; destruct (appState m); reflexivity).
  split; [ exact Hflag | split ].
  - intro Hbusy. unfold clickMap, clickCity. rewrite Hflag, Hbusy.
    split; reflexivity.
  - intros Hidle Hw Hh Hx Hy. unfold clickMap. rewrite Hflag, Hidle.
    destruct (click_inside_globe rect e Hw Hh Hx Hy)
      as (c & Hclick & Hlat & Hlng).
    rewrite Hclick. exists c. split; [ reflexivity | ].
    destruct m as [ st loc cnt auto theme lg ctx timer runs next ].
    cbn [appState] in Hidle. run_fields. rewrite Hidle.
    repeat split; first [ apply Hlat | apply Hlng ].
Qed.

(** X25. When the audio context cannot be built the run ends like any
    uncategorised failure: state [ERROR], a "System failure" line that
    carries the text of the error ("Unknown" when it has none), the bundle
    on display kept; no context is recorded, so the next run tries to
    build one again.  Once a context is there the constructor is not
    called any more. *)
Theorem audio_context_failure_is_reported
    (m : Model) (i : nat) (c : Coordinates) (t : ThemeConfig)
    (narrative message : string) :
  inFlight m !! i = Some (mkRun c t AwaitNarrative) ->
  message <> "WEATHER_FAILED" -> message <> "NARRATIVE_FAILED" ->
  message <> "AUDIO_FAILED" ->
  let m' := step m (NarrativeSettled i (Fulfilled narrative) (Some message)) in
  (audioContextRef m = false ->
   appState m' = ERROR
   /\ head (logs m')
      = Some ("Error: System failure ("
                ++ (if String.eqb message "" then "Unknown" else message)
                ++ ").")
   /\ content m' = content m
   /\ audioContextRef m' = false
   /\ inFlight m' !! i = None)
  /\ (audioContextRef m = true ->
      appState m' = GENERATING_MEDIA
      /\ inFlight m' !! i = Some (mkRun c t (AwaitMedia narrative))).
Proof.
  intros Hrun Hw Hn Ha m'. subst m'.
  destruct m as [ st loc cnt auto theme lg ctx timer runs next ].
  cbn [inFlight] in Hrun. run_fields. rewrite Hrun. run_fields.
  split; intro Hctx; cbn [audioContextRef] in Hctx; subst ctx; run_fields.
  - unfold userMsg. apply String.eqb_neq in Hw, Hn, Ha. rewrite Hw, Hn, Ha.
    repeat split. apply lookup_delete_eq.
  - split; [ reflexivity | apply lookup_insert_eq ].
Qed.

End Runs.

(** ** Playback and the spectrum display *)

Section Playback.
Import LynchPlayer.



(** X27. A new bundle starts playing by itself only if nothing was
    playing.  When the previous audio is still playing as the bundle
    arrives, the cleanup stops it and the autoplay that follows returns at
    once, because it still sees [isPlaying] set: no source is created and
    the player waits for the replay button.  When nothing was playing, a
    new source is created, becomes the live one and its loop paints a
    first frame. *)
Theorem new_bundle_autoplays_only_when_idle
    (m : Model) (audioBuffer : AudioBuffer) :
  (isPlaying m = true ->
   step m (ContentChanged (Some audioBuffer)) = stopPlayback m
   /\ sourceNodeRef (step m (ContentChanged (Some audioBuffer))) = None)
  /\ (isPlaying m = false -> canvasRef m = true ->
      let m' := step m (ContentChanged (Some audioBuffer)) in
      sourceNodeRef m' = Some (SourceNodeRef (nextSource m))
      /\ isPlaying m' = true
      /\ frames m'
         = mkFrame (SourceNodeRef (nextSource m))
                   (Some (SourceNodeRef (nextSource m))) :: frames m
      /\ scheduled m' = (scheduled m ++ [SourceNodeRef (nextSource m)])%list).
Proof.
  split.
  - intro Hplaying. cbn [step]. rewrite Hplaying. split; reflexivity.
  - intros Hidle Hcanvas m'. subst m'. cbn [step]. rewrite Hidle.
    unfold startPlayback, visualize, stopPlayback. cbn [canvasRef nextSource].
    rewrite Hcanvas. repeat split.
Qed.

Lemma fillBars_lookup (h w : Q) (dataArray : list Z) :
  forall (x : Q) (k : nat) (bar : Bar),
    fillBars h w x dataArray !! k = Some bar ->
    exists value : Z,
      dataArray !! k = Some value
      /\ globalAlpha bar = (inject_Z value / 255)%Q
      /\ barY bar = (h - inject_Z value / 2)%Q
      /\ barH bar = (inject_Z value / 2)%Q
      /\ barW bar = w
      /\ (barX bar == x + inject_Z (Z.of_nat k) * (w + 1))%Q.
Proof.
  induction dataArray as [ | value rest IH ]; intros x k bar Hk.
  - cbn [fillBars] in Hk. rewrite lookup_nil in Hk. discriminate Hk.
  - destruct k as [ | k ].
    + injection Hk as <-. exists value. cbn.
      repeat split; try reflexivity. ring.
    + cbn [fillBars] in Hk. rewrite lookup_cons in Hk.
      destruct (IH _ _ _ Hk) as (v & Hv & Ha & Hy & Hh & Hw & Hx).
      exists v. rewrite lookup_cons. repeat split; try assumption.
      rewrite Hx, Nat2Z.inj_succ. unfold Z.succ. rewrite inject_Z_plus. ring.
Qed.

Lemma fillBars_length (h w : Q) (dataArray : list Z) :
  forall x : Q, length (fillBars h w x dataArray) = length dataArray.
Proof.
  induction dataArray as [ | value rest IH ]; intro x; [ reflexivity | ].
  cbn [fillBars length]. rewrite IH. reflexivity.
Qed.

(** X28. One frame of the display has one bar per frequency bin, in the
    order of the bins.  For byte magnitudes the opacity of a bar is the
    magnitude over 255, between 0 and 1, its height is half the magnitude,
    at most 127.5, and it stands on the bottom edge of the canvas; a
    silent bin gives an invisible bar of height 0.  The bars all have the
    same width, 2.5 times the canvas width over the number of bins, and
    follow each other from the left edge with a gap of one pixel. *)
Theorem spectrum_bars_follow_the_bins
    (canvasWidth canvasHeight : Q) (dataArray : list Z) :
  Forall (fun value => (0 <= value <= 255)%Z) dataArray ->
  length (paint canvasWidth canvasHeight dataArray) = length dataArray
  /\ forall (k : nat) (bar : Bar),
      paint canvasWidth canvasHeight dataArray !! k = Some bar ->
      exists value : Z,
        dataArray !! k = Some value
        /\ (globalAlpha bar == inject_Z value / 255)%Q
        /\ (0 <= globalAlpha bar /\ globalAlpha bar <= 1)%Q
        /\ (barH bar == inject_Z value / 2)%Q
        /\ (0 <= barH bar /\ barH bar <= 255 # 2)%Q
        /\ (barY bar + barH bar == canvasHeight)%Q
        /\ (value = 0%Z -> globalAlpha bar == 0 /\ barH bar == 0)%Q
        /\ (barW bar
            == canvasWidth / inject_Z (Z.of_nat (length dataArray))
               * (25 # 10))%Q
        /\ (barX bar == inject_Z (Z.of_nat k) * (barW bar + 1))%Q.
Proof.
  intro Hbytes. split; [ apply fillBars_length | ].
  intros k bar Hk. unfold paint in Hk.
  destruct (fillBars_lookup _ _ _ _ _ _ Hk)
    as (value & Hvalue & Ha & Hy & Hh & Hw & Hx).
  exists value. split; [ exact Hvalue | ].
  rewrite Forall_lookup in Hbytes. specialize (Hbytes _ _ Hvalue).
  assert (Hv : (0 <= inject_Z value /\ inject_Z value <= 255)%Q).
  { split; [ change 0%Q with (inject_Z 0) | change 255%Q with (inject_Z 255) ];
      rewrite <- Zle_Qle; lia. }
  assert (Hdiv255 : (inject_Z value / 255 == inject_Z value * (1 # 255))%Q)
    by field.
  assert (Hdiv2 : (inject_Z value / 2 == inject_Z value * (1 # 2))%Q)
    by field.
  rewrite Ha, Hy, Hh, Hw, Hx.
  split; [ reflexivity | ].
  split; [ rewrite Hdiv255; lra | ].
  split; [ reflexivity | ].
  split; [ rewrite Hdiv2; lra | ].
  split; [ ring | ].
  split; [ intros ->; split; reflexivity | ].
  split; [ reflexivity | ring ].
Qed.

(** X29. The display is wider and taller than the canvas.  On a canvas
    of positive width every bar from the second on whose index is at least
    two fifths of the number of bins starts to the right of the canvas,
    and a bar whose magnitude exceeds twice the canvas height starts above
    it.  On the canvas of the component (600 by 50, 128 bins) a bar starts
    on the canvas exactly when its index is below 48, and magnitudes above
    100 are cut at the top. *)
Theorem spectrum_exceeds_the_canvas :
  (forall (width height : Q) (dataArray : list Z) (k : nat) (bar : Bar),
      (0 < width)%Q ->
      paint width height dataArray !! k = Some bar ->
      (1 <= k -> 2 * length dataArray <= 5 * k -> (width < barX bar)%Q)
      /\ (forall value : Z,
            dataArray !! k = Some value ->
            (2 * height < inject_Z value)%Q -> (barY bar < 0)%Q))
  /\ (forall (dataArray : list Z) (k : nat) (bar : Bar),
        length dataArray = frequencyBinCount ->
        paint canvasWidth canvasHeight dataArray !! k = Some bar ->
        ((barX bar < canvasWidth)%Q <-> k < 48)
        /\ (forall value : Z,
              dataArray !! k = Some value ->
              (100 < value)%Z -> (barY bar < 0)%Q)).
Proof.
  split.
  - intros width height dataArray k bar Hwidth Hk. unfold paint in Hk.
    destruct (fillBars_lookup _ _ _ _ _ _ Hk)
      as (value & Hvalue & _ & Hy & _ & _ & Hx).
    split.
    + intros Hk1 Hfar. apply lookup_lt_Some in Hvalue.
      set (N := inject_Z (Z.of_nat (length dataArray))) in *.
      set (K := inject_Z (Z.of_nat k)) in *.
      assert (HN : (0 < N)%Q)
        by (subst N; change 0%Q with (inject_Z 0); rewrite <- Zlt_Qlt; lia).
      assert (HK : (1 <= K)%Q)
        by (subst K; change 1%Q with (inject_Z 1); rewrite <- Zle_Qle; lia).
      assert (HKN : (2 * N <= 5 * K)%Q).
      { subst N K. change 2%Q with (inject_Z 2). change 5%Q with (inject_Z 5).
        rewrite <- !inject_Z_mult, <- Zle_Qle. lia. }
      set (q := (width / N)%Q) in *.
      assert (Hq : (0 < q)%Q)
        by (subst q; apply Qlt_shift_div_l; [ exact HN | lra ]).
      assert (Hwq : (width == q * N)%Q)
        by (subst q; field; intro H0; rewrite H0 in HN; lra).
      assert (Hprod : (q * (2 * N) <= q * (5 * K))%Q)
        by (apply Qmult_le_l; assumption).
      rewrite Hx.
      assert (Hexpand : (0 + K * (q * (25 # 10) + 1)
                         == (1 # 2) * (q * (5 * K)) + K)%Q) by ring.
      assert (Hwidth2 : (width == (1 # 2) * (q * (2 * N)))%Q)
        by (rewrite Hwq; ring).
      rewrite Hexpand, Hwidth2. lra.
    + intros v Hv Htall. rewrite Hv in Hvalue. injection Hvalue as <-.
      rewrite Hy.
      assert (Hhalf : (inject_Z v / 2 == inject_Z v * (1 # 2))%Q) by field.
      rewrite Hhalf. lra.
  - intros dataArray k bar Hlen Hk. unfold paint in Hk.
    destruct (fillBars_lookup _ _ _ _ _ _ Hk)
      as (value & Hvalue & _ & Hy & _ & _ & Hx).
    rewrite Hlen in Hx.
    assert (Hstep : (canvasWidth / inject_Z (Z.of_nat frequencyBinCount)
                     * (25 # 10) + 1 == 407 # 32)%Q) by reflexivity.
    rewrite Hstep in Hx. split.
    + rewrite Hx. unfold canvasWidth. split.
      * intro Hon. destruct (le_lt_dec 48 k) as [ Hfar | Hnear ];
          [ exfalso | exact Hnear ].
        assert (HK : (48 <= inject_Z (Z.of_nat k))%Q)
          by (change 48%Q with (inject_Z 48); rewrite <- Zle_Qle; lia).
        lra.
      * intro Hnear.
        assert (HK : (inject_Z (Z.of_nat k) <= 47)%Q)
          by (change 47%Q with (inject_Z 47); rewrite <- Zle_Qle; lia).
        assert (HK0 : (0 <= inject_Z (Z.of_nat k))%Q)
          by (change 0%Q with (inject_Z 0); rewrite <- Zle_Qle; lia).
        lra.
    + intros v Hv Hloud. rewrite Hv in Hvalue. injection Hvalue as <-.
      rewrite Hy. unfold canvasHeight.
      assert (Hv100 : (101 <= inject_Z v)%Q)
        by (change 101%Q with (inject_Z 101); rewrite <- Zle_Qle; lia).
      assert (Hhalf : (inject_Z v / 2 == inject_Z v * (1 # 2))%Q) by field.
      rewrite Hhalf. lra.
Qed.

End Playback.

(** ** Samples for the properties above *)

Section RunSamples.
Import App Sample.

Local Abbreviation step := (App.step toFixed2 toFixed2).
Local Abbreviation steps := (App.steps toFixed2 toFixed2).

Lemma idle_submit_starts_run_witness :
  currentLocation (step initial (SelectLocation losAngeles)) = Some losAngeles
  /\ logs (step initial (SelectLocation losAngeles))
     = ["Connecting to coordinates: 34.05, -118.24..."].
Proof.
  destruct (idle_submit_starts_run toFixed2 toFixed2 initial losAngeles
              (or_introl eq_refl)) as (Hloc & _ & _ & Hlogs & _).
  split; [ exact Hloc | exact Hlogs ].
Defined.


Lemma gateway_failures_have_fixed_lines_witness :
  head (logs (step atMedia
                (MediaSettled 0
                   (GeminiService.generateSpeech
                      (GeminiService.SpeechResponds None
                         (Fulfilled (AudioBufferRef 0))))
                   (Fulfilled None))))
  = Some "Error: Audio frequency corruption (TTS Failed).".
Proof.
  destruct (gateway_failures_have_fixed_lines toFixed2 toFixed2)
    as (_ & _ & Hspeech).
  destruct (Hspeech atMedia 0 losAngeles LYNCH monologue
              (GeminiService.SpeechResponds None (Fulfilled (AudioBufferRef 0)))
              (Fulfilled None) eq_refl
              (or_intror (or_introl (ex_intro _ _ eq_refl))))
    as (_ & Hlogs & _).
  rewrite Hlogs. reflexivity.
Defined.

Lemma narrative_is_never_empty_witness :
  exists narrative : string,
    inFlight (step atNarrative
                (NarrativeSettled 0
                   (GeminiService.generateNarrative (Fulfilled (Some "")))
                   None)) !! 0
    = Some (mkRun losAngeles LYNCH (AwaitMedia narrative))
    /\ narrative <> "".
Proof.
  destruct (narrative_is_never_empty toFixed2 toFixed2 atNarrative 0
              losAngeles LYNCH (Some "") eq_refl)
    as (narrative & Hrun & _ & Hne & _).
  exists narrative. split; [ exact Hrun | exact Hne ].
Defined.

Lemma map_submissions_never_overlap_witness :
  size (inFlight (steps initial
                    [SelectLocation losAngeles;
                     SelectLocation (mkCoordinates 0 0);
                     WeatherSettled 0 (Fulfilled mild);
                     SelectLocation (mkCoordinates 10 10)])) <= 1.
Proof.
  apply (map_submissions_never_overlap toFixed2 toFixed2
           [SelectLocation losAngeles;
            SelectLocation (mkCoordinates 0 0);
            WeatherSettled 0 (Fulfilled mild);
            SelectLocation (mkCoordinates 10 10)] eq_refl).
Defined.

(** Auto-drift has been switched on in the initial state. *)
Lemma auto_drift_stays_off_the_poles_witness :
  exists c : Coordinates,
    inFlight (step (step initial (AutoDriftToggle true (1 # 2) (1 # 2)))
                   (AutoDriftTick 0 (999 # 1000))) !! 1
    = Some (mkRun c LYNCH AwaitWeather)
    /\ (-80 <= lat c /\ lat c < 80)%Q
    /\ (-180 <= lng c /\ lng c < 180)%Q.
Proof.
  apply (auto_drift_stays_off_the_poles toFixed2 toFixed2
           (step initial (AutoDriftToggle true (1 # 2) (1 # 2)))
           LYNCH 0 (999 # 1000) eq_refl);
    split; vm_compute; first [ reflexivity | discriminate ].
Defined.

Lemma auto_drift_keeps_its_theme_witness :
  currentTheme (steps initial [AutoDriftToggle true (1 # 2) (1 # 2);
                               ThemeButton BLADE;
                               AutoDriftTick (1 # 4) (3 # 4)])
  = BLADE
  /\ inFlight (steps initial [AutoDriftToggle true (1 # 2) (1 # 2);
                              ThemeButton BLADE;
                              AutoDriftTick (1 # 4) (3 # 4)]) !! 1
     = Some (mkRun (mkCoordinates ((1 # 4) * 160 - 80) ((3 # 4) * 360 - 180))
                   LYNCH AwaitWeather).
Proof.
  apply (auto_drift_keeps_its_theme toFixed2 toFixed2 initial BLADE
           (1 # 2) (1 # 2) (1 # 4) (3 # 4) eq_refl).
Defined.

Lemma auto_drift_off_only_disarms_witness :
  autoModeTimerRef
    (step (step initial (AutoDriftToggle true (1 # 2) (1 # 2)))
          (AutoDriftToggle false 0 0)) = None
  /\ inFlight (step (step initial (AutoDriftToggle true (1 # 2) (1 # 2)))
                    (AutoDriftToggle false 0 0))
     = inFlight (step initial (AutoDriftToggle true (1 # 2) (1 # 2))).
Proof.
  destruct (auto_drift_off_only_disarms toFixed2 toFixed2
              (step initial (AutoDriftToggle true (1 # 2) (1 # 2)))
              0 0 0 0 eq_refl) as (_ & Htimer & Hruns & _).
  split; [ exact Htimer | exact Hruns ].
Defined.

Lemma map_click_respects_busy_witness :
  clickMap toFixed2 (WorldMap.mkDOMRect 8 16 600 300)
           (WorldMap.mkMouseEvent 150 100) atNarrative
  = atNarrative.
Proof.
  destruct (map_click_respects_busy toFixed2 toFixed2 atNarrative
              (WorldMap.mkDOMRect 8 16 600 300)
              (WorldMap.mkMouseEvent 150 100)
              (mkCityWeather "NY" (4071 # 100) (-7400 # 100) 4))
    as (_ & Hbusy & _).
  apply Hbusy. reflexivity.
Defined.

Lemma audio_context_failure_is_reported_witness :
  appState (step atNarrative
              (NarrativeSettled 0 (Fulfilled monologue)
                                (Some "NotSupportedError")))
  = ERROR
  /\ head (logs (step atNarrative
                   (NarrativeSettled 0 (Fulfilled monologue)
                                     (Some "NotSupportedError"))))
     = Some "Error: System failure (NotSupportedError).".
Proof.
  destruct (audio_context_failure_is_reported toFixed2 toFixed2 atNarrative 0
              losAngeles LYNCH monologue "NotSupportedError" eq_refl)
    as [ Hfail _ ]; try discriminate.
  destruct (Hfail eq_refl) as (Hstate & Hlog & _).
  split; [ exact Hstate | exact Hlog ].
Defined.

End RunSamples.

Section PlaybackSamples.
Import LynchPlayer.

Lemma new_bundle_autoplays_only_when_idle_witness :
  sourceNodeRef
    (step (step initial (Mount (Some (AudioBufferRef 0))))
          (ContentChanged (Some (AudioBufferRef 1))))
  = None.
Proof.
  destruct (new_bundle_autoplays_only_when_idle
              (step initial (Mount (Some (AudioBufferRef 0))))
              (AudioBufferRef 1)) as [ Hplaying _ ].
  destruct (Hplaying eq_refl) as [ _ Hnone ]. exact Hnone.
Defined.

Lemma spectrum_bars_follow_the_bins_witness :
  length (paint 600 50 [0; 255; 128]%Z) = 3.
Proof.
  destruct (spectrum_bars_follow_the_bins 600 50 [0; 255; 128]%Z) as [ H _ ].
  - repeat constructor; lia.
  - exact H.
Defined.

Lemma spectrum_exceeds_the_canvas_witness :
  exists bar : Bar,
    paint 100 50 [10; 20; 30; 40; 50]%Z !! 2 = Some bar
    /\ (100 < barX bar)%Q.
Proof.
  eexists. split; [ reflexivity | ].
  destruct spectrum_exceeds_the_canvas as [ H _ ].
  eapply (H 100%Q 50%Q [10; 20; 30; 40; 50]%Z 2);
    [ reflexivity | reflexivity | cbn; lia | cbn; lia ].
Defined.

End PlaybackSamples.
